(** * The UI interaction engine of the QA automation framework

    A shallow embedding of the page objects under [ui_tests/pages]
    ([base_page.py], [twitch_home_page.py], [twitch_streamer_page.py]) and of
    the [driver] fixture of [ui_tests/conftest.py], together with the
    properties the specification states about them.

    Python strings are modelled as [string]; one [ascii] stands for one
    character.  Durations are integers, in milliseconds.  The browser is
    reached through requests that a session answers with a value or an
    exception; every request is kept in a trace, with its outcome.  Calls to
    the logger and the fixed [time.sleep] pauses change nothing that is
    modelled and are left out. *)

From Stdlib Require Import List String Ascii Bool Arith ZArith Lia.
Import ListNotations.
Open Scope string_scope.

Set Implicit Arguments.

(** ** Python string primitives used by the page objects *)

Module PyStr.

(** [sub in s] *)
Fixpoint contains (sub s : string) : bool :=
  match s with
  | EmptyString => prefix sub s
  | String _ s' => prefix sub s || contains sub s'
  end.

(** [s.startswith(p)] *)
Definition startswith (p s : string) : bool := prefix p s.

(** [c in chars], for one character *)
Fixpoint mem_char (c : ascii) (chars : string) : bool :=
  match chars with
  | EmptyString => false
  | String d chars' => Ascii.eqb c d || mem_char c chars'
  end.

(** [s.lstrip(chars)] *)
Fixpoint lstrip (chars s : string) : string :=
  match s with
  | EmptyString => EmptyString
  | String c s' => if mem_char c chars then lstrip chars s' else s
  end.

(** [s.rstrip(chars)] *)
Fixpoint rstrip (chars s : string) : string :=
  match s with
  | EmptyString => EmptyString
  | String c s' =>
      match rstrip chars s' with
      | EmptyString => if mem_char c chars then EmptyString else String c EmptyString
      | r => String c r
      end
  end.

(** [s.strip(chars)] *)
Definition strip (chars s : string) : string := rstrip chars (lstrip chars s).

(** [s.split(sep)] for a non-empty [sep]: the pieces between the
    occurrences of [sep], found from the left and not overlapping.  [skip]
    counts the characters of a separator still to be passed over, [cur] is
    the piece being read, last character first. *)
Fixpoint split_from (sep : string) (skip : nat) (cur : list ascii) (s : string)
  : list string :=
  match s with
  | EmptyString => [string_of_list_ascii (rev cur)]
  | String c s' =>
      match skip with
      | S k => split_from sep k cur s'
      | O =>
          if prefix sep s
          then string_of_list_ascii (rev cur) :: split_from sep (length sep - 1) [] s'
          else split_from sep 0 (c :: cur) s'
      end
  end.

Definition split (sep s : string) : list string := split_from sep 0 [] s.

(** [l[-1]] of a list of strings that [split] returned *)
Definition last_piece (l : list string) : string := last l EmptyString.

(** [x in l] for a list of strings *)
Definition mem (x : string) (l : list string) : bool :=
  existsb (String.eqb x) l.

End PyStr.

(** ** Python values that reach a truth test *)

Inductive pyval : Type :=
| PyBool (b : bool)
| PyString (s : string).

Definition truthy (v : pyval) : bool :=
  match v with
  | PyBool b => b
  | PyString s => negb (String.eqb s EmptyString)
  end.

(** [a and b], with Python's rule: the value of [a] when it is falsy. *)
Definition py_and (a : pyval) (b : pyval) : pyval :=
  if truthy a then b else a.

(** ** The link classifier, [TwitchHomePage._is_channel_link] *)

Definition exclude_patterns : list string :=
  ["directory"; "search"; "prime"; "turbo"; "downloads"; "jobs"; "about"; "p";
   "videos"; "clips"; "settings"; "subscriptions"; "inventory"; "wallet";
   "drops"; "friends"].

(** [href.split("twitch.tv/")[-1].strip("/")] *)
Definition href_path (href : string) : string :=
  PyStr.strip "/" (PyStr.last_piece (PyStr.split "twitch.tv/" href)).

(** [path_segments = path.split("/")] *)
Definition path_segments (path : string) : list string := PyStr.split "/" path.

(** [path_segments[0]]; [split] never returns an empty list. *)
Definition channel_name (segments : list string) : string :=
  hd EmptyString segments.

(** The expression bound to [is_valid]. *)
Definition is_valid (segments : list string) : pyval :=
  let name := channel_name segments in
  py_and (PyString name)
    (py_and (PyBool (negb (PyStr.mem name exclude_patterns)))
       (py_and (PyBool (Nat.ltb 1 (String.length name)))
          (PyBool (Nat.eqb (List.length segments) 1)))).

(** The body of [_is_channel_link] once [element.get_attribute("href")] has
    returned [href] ([None] is the absent attribute). *)
Definition channel_link_of_href (href : option string) : pyval :=
  match href with
  | None => PyBool false
  | Some h =>
      if String.eqb h EmptyString || negb (PyStr.contains "twitch.tv/" h)
      then PyBool false
      else
        let path := href_path h in
        if String.eqb path EmptyString || PyStr.startswith "?" path
        then PyBool false
        else is_valid (path_segments path)
  end.

(** The rules on the shape of a path in the words of the specification: the
    first segment is not empty and longer than one character, it is not one
    of the excluded roots, and the path has exactly one segment. *)
Definition path_shape_ok (segments : list string) : bool :=
  negb (String.eqb (channel_name segments) EmptyString)
  && negb (PyStr.mem (channel_name segments) exclude_patterns)
  && Nat.ltb 1 (String.length (channel_name segments))
  && Nat.eqb (List.length segments) 1.


(** ** Exceptions and results *)

(** The exception classes the page objects name or raise.  Every one of them
    is an [Exception] for an [except Exception] clause. *)
Inductive exn : Type :=
| TimeoutException
| NoSuchElementException
| ElementClickInterceptedException
| WebDriverException (msg : string)
| ValueError (msg : string)
| AssertionError (msg : string)
| Exception (msg : string).

Inductive res (A : Type) : Type :=
| Ok (a : A)
| Raise (e : exn).

Arguments Ok {A} a.
Arguments Raise {A} e.

Definition is_ok {A} (r : res A) : bool :=
  match r with Ok _ => true | Raise _ => false end.

(** ** The driver abstraction *)

Inductive By : Type := CSS_SELECTOR | XPATH | TAG_NAME.

Definition locator : Type := (By * string)%type.

(** An opaque reference to a live DOM node. *)
Definition element : Type := nat.

(** The entries of the script's [selectors] array, in its order:
    [main[role=main]], [div[data-a-page-loaded=true]], [#root], [body],
    [html] (the attribute values are quoted in the script). *)
Inductive css : Type := MainRoleMain | DivPageLoaded | Root | Body | Html.

Definition scroll_selectors : list css :=
  [MainRoleMain; DivPageLoaded; Root; Body; Html].

(** What the scroll script returns: [{scrolled, selector, scrollTop}], where
    [selector] is an entry of [selectors], a tag name or ['window']. *)
Inductive scrolled_what : Type :=
| BySelector (c : css)
| ByTag (tag : string)
| Window.

Record js_result : Type := {
  js_scrolled : bool;
  js_selector : scrolled_what;
  js_scrollTop : Z
}.

(** The scripts handed to [driver.execute_script]. *)
Inductive script : Type :=
| JsClick (e : element)                  (* "arguments[0].click();" *)
| JsScrollIntoViewCenter (e : element)   (* "arguments[0].scrollIntoView({block: 'center'});" *)
| JsScrollIntoView (e : element)         (* "arguments[0].scrollIntoView(true);" *)
| JsReadyState                           (* "return document.readyState" *)
| JsScrollBy (pixels : Z).               (* scroll_script of scroll_by_pixels *)

Inductive keys : Type :=
| Text (s : string)
| ENTER.

(** Every request the code sends to the browser session.  The [Until*]
    requests are [WebDriverWait(driver, timeout).until(EC....)] with one of
    the library's expected conditions; they raise [TimeoutException] when the
    condition does not hold in time. *)
Inductive call : Type :=
| DriverGet (url : string)
| DriverFindElement (l : locator)
| DriverCurrentUrl
| DriverExecuteScript (s : script)
| DriverSaveScreenshot (name : string)
| UntilPresence (timeout : Z) (l : locator)
| UntilPresenceAll (timeout : Z) (l : locator)
| UntilVisibility (timeout : Z) (l : locator)
| UntilClickable (timeout : Z) (l : locator)
| UntilUrlContains (timeout : Z) (s : string)
| ElementClick (e : element)
| ElementClear (e : element)
| ElementSendKeys (e : element) (k : keys)
| ElementGetAttribute (e : element) (name : string)
| ElementText (e : element)
| WebdriverChrome (headless mobile : bool)
| WebdriverFirefox (headless : bool)
| WebdriverEdge (headless : bool)
| ImplicitlyWait (seconds : Z)
| SetPageLoadTimeout (seconds : Z)
| SetScriptTimeout (seconds : Z)
| MaximizeWindow
| DriverQuit.

Definition script_ret (s : script) : Type :=
  match s with
  | JsReadyState => string
  | JsScrollBy _ => option js_result
  | _ => unit
  end.

Definition ret_type (c : call) : Type :=
  match c with
  | DriverFindElement _ | UntilPresence _ _ | UntilVisibility _ _
  | UntilClickable _ _ => element
  | UntilPresenceAll _ _ => list element
  | DriverCurrentUrl | DriverSaveScreenshot _ | ElementText _ => string
  | ElementGetAttribute _ _ => option string
  | DriverExecuteScript s => script_ret s
  | UntilUrlContains _ _ => bool
  | _ => unit
  end.

(** A browser session: how it answers each request from a state of type
    [W], and how many further polls of a [WebDriverWait] fit in a timeout
    after the first one. *)
Record Driver (W : Type) : Type := {
  respond : forall c : call, W -> res (ret_type c) * W;
  polls : Z -> nat
}.

(** A request as it is remembered: what was asked, and the exception it was
    answered with, if any. *)
Record event : Type := {
  ev_call : call;
  ev_raised : option exn
}.

Definition raised {A} (r : res A) : option exn :=
  match r with
  | Ok _ => None
  | Raise e => Some e
  end.

(** The state the code runs in: the session and the requests sent so far,
    oldest first. *)
Record state (W : Type) : Type := {
  world : W;
  trace : list event
}.

(** ** The monad of the page objects: state and exceptions *)

Definition M (W A : Type) : Type := state W -> res A * state W.

Definition ret {W A} (a : A) : M W A := fun s => (Ok a, s).

Definition raise {W A} (e : exn) : M W A := fun s => (Raise e, s).

Definition bind {W A B} (m : M W A) (k : A -> M W B) : M W B :=
  fun s =>
    match m s with
    | (Ok a, s') => k a s'
    | (Raise e, s') => (Raise e, s')
    end.

Declare Scope py_scope.
Delimit Scope py_scope with py.
Notation "x <- m ;; k" := (bind m (fun x => k))
  (at level 100, m at next level, right associativity) : py_scope.
Notation "m ;; k" := (bind m (fun _ => k))
  (at level 100, right associativity) : py_scope.
Open Scope py_scope.

(** [try: body except ...: handler]; the handler re-raises what its clause
    does not name. *)
Definition try_except {W A} (body : M W A) (handler : exn -> M W A) : M W A :=
  fun s =>
    match body s with
    | (Ok a, s') => (Ok a, s')
    | (Raise e, s') => handler e s'
    end.

(** [try: body finally: cleanup] *)
Definition try_finally {W A} (body : M W A) (cleanup : M W unit) : M W A :=
  fun s =>
    match body s with
    | (r, s') =>
        match cleanup s' with
        | (Ok _, s'') => (r, s'')
        | (Raise e, s'') => (Raise e, s'')
        end
    end.

(** [except TimeoutException: handler] *)
Definition on_timeout {W A} (handler : M W A) (e : exn) : M W A :=
  match e with
  | TimeoutException => handler
  | _ => raise e
  end.

(** [except NoSuchElementException: handler] *)
Definition on_no_such_element {W A} (handler : M W A) (e : exn) : M W A :=
  match e with
  | NoSuchElementException => handler
  | _ => raise e
  end.

(** The exceptions a [WebDriverWait] ignores by default. *)
Definition ignored_by_wait (e : exn) : bool :=
  match e with
  | NoSuchElementException => true
  | _ => false
  end.

Section Engine.

Context {W : Type} (drv : Driver W).

(** Send a request: it is recorded, then answered by the session. *)
Definition request (c : call) : M W (ret_type c) :=
  fun s =>
    let (r, w') := respond drv c (world s) in
    (r, {| world := w';
           trace := trace s ++ [{| ev_call := c; ev_raised := raised r |}] |}).

(** [WebDriverWait(driver, timeout).until(method)] for a [method] written
    in the page objects (a lambda).  The class belongs to the Selenium
    library; its polling contract is the one of the specification's wait
    engine: poll until the method is truthy, ignore the exceptions of
    [ignored_by_wait], let any other exception through at once, and raise
    [TimeoutException] when the time is over. *)
Fixpoint until_loop (n : nat) (method : M W bool) : M W bool :=
  fun s =>
    match method s with
    | (Ok true, s') => (Ok true, s')
    | (Ok false, s') =>
        match n with
        | O => (Raise TimeoutException, s')
        | S n' => until_loop n' method s'
        end
    | (Raise e, s') =>
        if ignored_by_wait e
        then match n with
             | O => (Raise TimeoutException, s')
             | S n' => until_loop n' method s'
             end
        else (Raise e, s')
    end.

Definition WebDriverWait_until (timeout : Z) (method : M W bool) : M W bool :=
  until_loop (polls drv timeout) method.

(** *** [BasePage] *)

(** [self.wait = WebDriverWait(driver, 5)] *)
Definition self_wait : Z := 5000.

Definition navigate_to (url : string) : M W unit :=
  request (DriverGet url).

Definition find_element (l : locator) : M W element :=
  try_except (request (UntilPresence self_wait l))
    (on_timeout (raise TimeoutException)).

Definition find_elements (l : locator) : M W (list element) :=
  try_except (request (UntilPresenceAll self_wait l))
    (on_timeout (ret [])).

Definition click (l : locator) : M W unit :=
  try_except
    (e <- request (UntilClickable self_wait l) ;;
     request (ElementClick e))
    (fun e => raise e).

Definition get_text (l : locator) : M W string :=
  try_except
    (e <- find_element l ;;
     request (ElementText e))
    (fun e => raise e).

Definition is_element_visible (l : locator) (timeout : Z) : M W bool :=
  try_except
    (_ <- request (UntilVisibility timeout l) ;; ret true)
    (on_timeout (ret false)).

Definition is_element_present (l : locator) : M W bool :=
  try_except
    (_ <- request (DriverFindElement l) ;; ret true)
    (on_no_such_element (ret false)).

(** The Python side of [scroll_by_pixels]; the script itself is
    [scroll_script] below. *)
Definition scroll_by_pixels (pixels : Z) : M W unit :=
  try_except
    (_ <- request (DriverExecuteScript (JsScrollBy pixels)) ;; ret tt)
    (fun e => raise e).

(** [lambda driver: driver.execute_script("return document.readyState") == "complete"] *)
Definition document_ready : M W bool :=
  ready <- request (DriverExecuteScript JsReadyState) ;;
  ret (String.eqb ready "complete").

Definition wait_for_page_load (timeout : Z) : M W unit :=
  try_except
    (_ <- WebDriverWait_until timeout document_ready ;;
     ret tt)
    (on_timeout (ret tt)).

Definition get_current_url : M W string :=
  request DriverCurrentUrl.

(** [ScreenshotHelper.take_screenshot] logs and re-raises. *)
Definition take_screenshot (name : string) : M W string :=
  try_except (request (DriverSaveScreenshot name)) (fun e => raise e).

Definition close_modal_if_present (close_button_locator : locator) (timeout : Z)
  : M W bool :=
  try_except
    (close_button <- request (UntilClickable timeout close_button_locator) ;;
     request (ElementClick close_button) ;;
     ret true)
    (on_timeout (ret false)).

(** *** [TwitchHomePage] *)

Definition SEARCH_ICON : locator := (CSS_SELECTOR, "a[aria-label='Search']").
Definition SEARCH_INPUT : locator := (CSS_SELECTOR, "input[type='search']").
Definition SEARCH_INPUT_ALT : locator :=
  (XPATH, "//input[@placeholder='Search' or @aria-label='Search Input']").
Definition LIVE_CHANNELS : locator :=
  (XPATH, "//a[contains(@href, '/') and not(contains(@href, 'twitch.tv/p/'))]//h3").
Definition STREAMER_CARDS : locator :=
  (XPATH, "//a[contains(@class, 'tw-link') and contains(@href, '/')]").
Definition SEARCH_RESULT_LINKS : locator := (CSS_SELECTOR, "a[class*='tw-link']").
Definition SEARCH_BUTTON : locator := (XPATH, "//button[@aria-label='Search']").

Definition url : string := "https://www.twitch.tv".

Definition cookie_selectors : list locator :=
  [ (CSS_SELECTOR, "button[data-a-target='consent-banner-accept']");
    (XPATH, "//button[contains(text(), 'Accept') or contains(text(), 'Consent')]") ].

(** The [for] loop of [handle_cookie_consent]; the inner [try] answers
    whether the function returned in this round. *)
Fixpoint cookie_consent_loop (selectors : list locator) : M W unit :=
  match selectors with
  | [] => ret tt
  | selector :: rest =>
      returned <- try_except
                    (visible <- is_element_visible selector 1000 ;;
                     if visible then (click selector ;; ret true) else ret false)
                    (fun _ => ret false) ;;
      if returned then ret tt else cookie_consent_loop rest
  end.

Definition handle_cookie_consent : M W unit :=
  try_except (cookie_consent_loop cookie_selectors) (fun _ => ret tt).

Definition open : M W unit :=
  navigate_to url ;;
  wait_for_page_load 30000 ;;
  handle_cookie_consent.

Definition click_search_icon : M W unit :=
  try_except
    (present <- is_element_present SEARCH_ICON ;;
     search_element <-
       (if present then e <- find_element SEARCH_ICON ;; ret (Some e)
        else
          present' <- is_element_present SEARCH_BUTTON ;;
          if present' then e <- find_element SEARCH_BUTTON ;; ret (Some e)
          else ret None) ;;
     match search_element with
     | Some e => request (DriverExecuteScript (JsClick e))
     | None => raise (Exception "Search icon not present")
     end)
    (fun e => raise e).

Definition enter_search_query (query : string) : M W unit :=
  try_except
    (visible <- is_element_visible SEARCH_INPUT 5000 ;;
     search_input <-
       (if visible then find_element SEARCH_INPUT
        else
          visible' <- is_element_visible SEARCH_INPUT_ALT 5000 ;;
          if visible' then find_element SEARCH_INPUT_ALT
          else raise (Exception "Search input field not found")) ;;
     request (ElementClick search_input) ;;
     request (ElementClear search_input) ;;
     request (ElementSendKeys search_input (Text query)) ;;
     request (ElementSendKeys search_input ENTER) ;;
     request (UntilUrlContains 5000 "/search") ;;
     _ <- get_current_url ;;
     ret tt)
    (fun e => take_screenshot "search_query_error" ;; raise e).

Definition search_for (query : string) : M W unit :=
  click_search_icon ;;
  enter_search_query query.

(** The rounds of [for i in range(times)]. *)
Fixpoint scroll_down_rounds (rounds : nat) (pixels : Z) : M W unit :=
  match rounds with
  | O => ret tt
  | S rounds' => scroll_by_pixels pixels ;; scroll_down_rounds rounds' pixels
  end.

(** [times] is a Python [int]: [range(times)] has [times] rounds, and none
    when [times] is negative. *)
Definition scroll_down (times : Z) (pixels : Z) : M W unit :=
  scroll_down_rounds (Z.to_nat times) pixels.

Definition _is_channel_link (e : element) : M W pyval :=
  try_except
    (href <- request (ElementGetAttribute e "href") ;;
     ret (channel_link_of_href href))
    (fun _ => ret (PyBool false)).

(** [[card for card in cards if self._is_channel_link(card)]] *)
Fixpoint filter_channel_links (cards : list element) : M W (list element) :=
  match cards with
  | [] => ret []
  | card :: rest =>
      keep <- _is_channel_link card ;;
      kept <- filter_channel_links rest ;;
      ret (if truthy keep then card :: kept else kept)
  end.

Definition selectors_to_try : list locator :=
  [ LIVE_CHANNELS;
    STREAMER_CARDS;
    SEARCH_RESULT_LINKS;
    (XPATH, "//a[contains(@href, '/') and .//h3]");
    (CSS_SELECTOR, "a[href^='/']") ].

(** [cards[:10] if cards else []] *)
Definition first_ten (cards : list element) : list element :=
  match cards with
  | [] => []
  | _ => firstn 10 cards
  end.

(** The [for] loop of [get_live_streamer_cards] and the statement after
    it; [cards] is the variable of that name. *)
Fixpoint streamer_cards_loop (selectors : list locator) (cards : list element)
  : M W (list element) :=
  match selectors with
  | [] => ret (first_ten cards)
  | selector :: rest =>
      cards' <- find_elements selector ;;
      match cards' with
      | [] => streamer_cards_loop rest cards'
      | _ =>
          filtered_cards <- filter_channel_links cards' ;;
          match filtered_cards with
          | [] => streamer_cards_loop rest cards'
          | _ => ret filtered_cards
          end
      end
  end.

Definition get_live_streamer_cards : M W (list element) :=
  try_except (streamer_cards_loop selectors_to_try []) (fun _ => ret []).

Definition get_streamer_cards : M W (list element) := get_live_streamer_cards.

Definition click_first_live_streamer : M W unit :=
  try_except
    (cards <- get_live_streamer_cards ;;
     match cards with
     | first_card :: _ =>
         _ <- request (ElementGetAttribute first_card "href") ;;
         text <- request (ElementText first_card) ;;
         (if String.eqb text EmptyString then ret tt
          else _ <- request (ElementText first_card) ;; ret tt) ;;
         request (DriverExecuteScript (JsScrollIntoViewCenter first_card)) ;;
         request (DriverExecuteScript (JsClick first_card)) ;;
         WebDriverWait_until 5000
           (current <- request DriverCurrentUrl ;;
            ret (negb (PyStr.contains "/search" current))) ;;
         ret tt
     | [] =>
         take_screenshot "no_streamers_found" ;;
         raise (Exception "No LIVE streamers found in search results")
     end)
    (fun e => take_screenshot "click_streamer_error" ;; raise e).

Definition click_first_streamer : M W unit := click_first_live_streamer.

Definition is_search_results_page_loaded : M W bool :=
  current_url <- get_current_url ;;
  cards <- get_live_streamer_cards ;;
  ret (PyStr.contains "/search" current_url && Nat.ltb 0 (List.length cards)).

(** *** [TwitchStreamerPage] *)

Definition VIDEO_PLAYER : locator := (CSS_SELECTOR, "video").
Definition STREAM_TITLE : locator := (CSS_SELECTOR, "h2[data-a-target='stream-title']").
Definition STREAMER_NAME : locator := (CSS_SELECTOR, "h1[data-a-target='channel-name']").
Definition LIVE_INDICATOR : locator :=
  (CSS_SELECTOR, "div[data-a-target='animated-channel-viewers-count']").
Definition CLOSE_BUTTON : locator := (CSS_SELECTOR, "button[aria-label='Close']").
Definition MODAL_CLOSE : locator := (XPATH, "//button[contains(@aria-label, 'Close')]").
Definition MATURE_CONTENT_BUTTON : locator :=
  (XPATH, "//button[contains(text(), 'Start Watching')]").

Definition close_selectors : list locator :=
  [ CLOSE_BUTTON;
    MODAL_CLOSE;
    (XPATH, "//button[contains(@aria-label, 'Close') or contains(@aria-label, 'Dismiss')]");
    (CSS_SELECTOR, "button[data-a-target='consent-banner-accept']") ].

(** The first [try] of [handle_modals]: the mature-content warning. *)
Definition handle_mature_content : M W unit :=
  try_except
    (visible <- is_element_visible MATURE_CONTENT_BUTTON 1000 ;;
     if visible then click MATURE_CONTENT_BUTTON else ret tt)
    (fun _ => ret tt).

(** The [for] loop of [handle_modals]: [break] at the first close button
    that was clicked, [continue] on an exception. *)
Fixpoint close_modals_loop (selectors : list locator) : M W unit :=
  match selectors with
  | [] => ret tt
  | selector :: rest =>
      closed <- try_except (close_modal_if_present selector 500)
                  (fun _ => ret false) ;;
      if closed then ret tt else close_modals_loop rest
  end.

(** [handle_modals] has no [return] statement: it returns [None]. *)
Definition handle_modals : M W (option bool) :=
  handle_mature_content ;;
  try_except (close_modals_loop close_selectors) (fun _ => ret tt) ;;
  ret None.

Definition wait_for_page_to_load (timeout : Z) : M W unit :=
  wait_for_page_load timeout ;;
  _ <- handle_modals ;;
  ret tt.

Definition is_video_player_visible : M W bool :=
  try_except
    (is_visible <- is_element_visible VIDEO_PLAYER 10000 ;;
     if negb is_visible
     then
       video_elements <- find_elements (TAG_NAME, "video") ;;
       ret (Nat.ltb 0 (List.length video_elements))
     else ret is_visible)
    (fun _ => ret true).

Definition is_stream_live : M W bool :=
  try_except
    (is_live <- is_element_visible LIVE_INDICATOR 10000 ;;
     if negb is_live then is_video_player_visible else ret is_live)
    (fun _ => ret false).

Definition get_stream_title : M W string :=
  try_except
    (visible <- is_element_visible STREAM_TITLE 10000 ;;
     if visible then get_text STREAM_TITLE else ret EmptyString)
    (fun _ => ret EmptyString).

Definition get_streamer_name : M W string :=
  try_except
    (visible <- is_element_visible STREAMER_NAME 10000 ;;
     if visible then get_text STREAMER_NAME else ret EmptyString)
    (fun _ => ret EmptyString).

Definition is_page_loaded_successfully : M W bool :=
  try_except
    (current_url <- get_current_url ;;
     ret (PyStr.contains "twitch.tv" current_url
          && Nat.ltb 3 (List.length (PyStr.split "/" current_url))))
    (fun _ => ret true).

(** *** The [driver] fixture of [conftest.py] *)

(** [create_driver]: the three branches on [browser] that build the
    options and start the session, and the [ValueError] of the last
    [else]. *)
Definition create_driver (browser : string) (headless mobile : bool) : M W unit :=
  if String.eqb browser "chrome" then request (WebdriverChrome headless mobile)
  else if String.eqb browser "firefox" then request (WebdriverFirefox headless)
  else if String.eqb browser "edge" then request (WebdriverEdge headless)
  else raise (ValueError ("Unsupported browser: " ++ browser)).

(** The statements between the creation of the session and [yield]. *)
Definition configure_driver (mobile : bool) : M W unit :=
  request (ImplicitlyWait 1) ;;
  request (SetPageLoadTimeout 8) ;;
  request (SetScriptTimeout 5) ;;
  if negb mobile then request MaximizeWindow else ret tt.

(** The [try] block up to [yield driver].  The second component is the
    local variable [driver] when the block is left ([true]: it holds a
    session; [false]: it is still [None]); the [finally] clause reads it. *)
Definition fixture_try (browser : string) (headless mobile : bool)
  : state W -> (res unit * bool) * state W :=
  fun s =>
    let driver := false in
    match create_driver browser headless mobile s with
    | (Raise e, s1) => ((Raise e, driver), s1)
    | (Ok _, s1) =>
        let driver := true in
        match configure_driver mobile s1 with
        | (r, s2) => ((r, driver), s2)
        end
    end.

(** [finally: if driver: driver.quit()] *)
Definition fixture_finally (driver : bool) : M W unit :=
  if driver then request DriverQuit else ret tt.

End Engine.

(** The command line and the environment, as the fixture reads them. *)
Record config : Type := {
  opt_browser : string;            (* --browser *)
  opt_headless : bool;             (* --headless *)
  opt_mobile : bool;               (* --mobile *)
  env_BROWSER : option string;     (* os.getenv("BROWSER") *)
  env_HEADLESS : option string     (* os.getenv("HEADLESS") *)
}.

(** [s.lower()] on ASCII letters *)
Definition lower_char (c : ascii) : ascii :=
  let n := nat_of_ascii c in
  if Nat.leb 65 n && Nat.leb n 90 then ascii_of_nat (n + 32) else c.

Fixpoint lower (s : string) : string :=
  match s with
  | EmptyString => EmptyString
  | String c s' => String (lower_char c) (lower s')
  end.

(** [str(b)] *)
Definition str_of_bool (b : bool) : string := if b then "True" else "False".

(** [os.getenv(name, default)] *)
Definition getenv (value : option string) (default : string) : string :=
  match value with
  | Some v => v
  | None => default
  end.

Definition fixture_browser (c : config) : string :=
  getenv (env_BROWSER c) (lower (opt_browser c)).

Definition fixture_headless (c : config) : bool :=
  String.eqb (lower (getenv (env_HEADLESS c) (str_of_bool (opt_headless c)))) "true".

Section Fixture.

Context {W : Type} (drv : Driver W).

(** The first [next] of the generator: it runs to [yield] and answers
    whether a session is handed to the test, or it leaves the [try] block
    with an exception, which [except Exception] re-raises after the
    [finally] clause has run. *)
Definition driver_setup (c : config) : M W bool :=
  fun s =>
    match fixture_try drv (fixture_browser c) (fixture_headless c) (opt_mobile c) s with
    | ((Ok _, driver), s1) => (Ok driver, s1)
    | ((Raise e, driver), s1) =>
        match fixture_finally drv driver s1 with
        | (Ok _, s2) => (Raise e, s2)
        | (Raise e', s2) => (Raise e', s2)
        end
    end.

(** The second [next] of the generator: the [try] block is over, the
    [finally] clause runs. *)
Definition driver_teardown (driver : bool) : M W unit :=
  fixture_finally drv driver.

(** How the test runner uses a generator fixture: the set-up; when it
    succeeded the test, whatever its outcome; then the tear-down.  The
    result is the outcome of the test, or of the set-up when that failed.
    This is the fixture alone: the hooks of [conftest.py] are not part of
    it, among them [pytest_runtest_makereport], which asks the session for a
    screenshot after a test that failed, before the tear-down. *)
Definition run_with_driver (c : config) (test : M W unit) : M W unit :=
  fun s =>
    match driver_setup c s with
    | (Raise e, s1) => (Raise e, s1)
    | (Ok driver, s1) =>
        match test s1 with
        | (outcome, s2) =>
            match driver_teardown driver s2 with
            | (_, s3) => (outcome, s3)
            end
        end
    end.

End Fixture.

(** ** The scroll script of [scroll_by_pixels] *)

(** What the script reads of a DOM element. *)
Record node : Type := {
  matches : css -> bool;
  tagName : string;
  overflowY : string;
  scrollHeight : Z;
  clientHeight : Z;
  node_scrollTop : Z
}.

(** The page the script runs on: its elements in document order and the
    scroll position of the window, which ranges over [0 .. page_max]. *)
Record document : Type := {
  nodes : list node;
  pageYOffset : Z;
  page_max : Z
}.

(** [isScrollable(element)] *)
Definition isScrollable (el : node) : bool :=
  (String.eqb (overflowY el) "scroll" || String.eqb (overflowY el) "auto")
  && Z.ltb (clientHeight el) (scrollHeight el).

(** The browser keeps a scroll offset within its range. *)
Definition clamp (lo hi x : Z) : Z := Z.max lo (Z.min hi x).

(** [el.scrollTop += pixels] *)
Definition scroll_node (pixels : Z) (el : node) : node :=
  {| matches := matches el;
     tagName := tagName el;
     overflowY := overflowY el;
     scrollHeight := scrollHeight el;
     clientHeight := clientHeight el;
     node_scrollTop :=
       clamp 0 (scrollHeight el - clientHeight el) (node_scrollTop el + pixels) |}.

(** The inner loops: the first element, in document order, that passes
    [test]; it is scrolled, and returned with the list as it is then. *)
Fixpoint scroll_first (test : node -> bool) (pixels : Z) (els : list node)
  : option (node * list node) :=
  match els with
  | [] => None
  | el :: rest =>
      if test el
      then let el' := scroll_node pixels el in Some (el', el' :: rest)
      else match scroll_first test pixels rest with
           | Some (hit, rest') => Some (hit, el :: rest')
           | None => None
           end
  end.

(** The loop over [selectors]: [document.querySelectorAll(selectors[i])]
    keeps the elements that match, in document order. *)
Fixpoint scroll_by_selectors (selectors : list css) (pixels : Z) (els : list node)
  : option (css * node * list node) :=
  match selectors with
  | [] => None
  | c :: rest =>
      match scroll_first (fun el => matches el c && isScrollable el) pixels els with
      | Some (hit, els') => Some (c, hit, els')
      | None => scroll_by_selectors rest pixels els
      end
  end.

(** The test of the second loop, over [document.querySelectorAll('*')]. *)
Definition scrollable_by_100 (el : node) : bool :=
  isScrollable el && Z.ltb (clientHeight el + 100) (scrollHeight el).

Definition scroll_script (pixels : Z) (d : document) : js_result * document :=
  match scroll_by_selectors scroll_selectors pixels (nodes d) with
  | Some (c, hit, els') =>
      ({| js_scrolled := true; js_selector := BySelector c;
          js_scrollTop := node_scrollTop hit |},
       {| nodes := els'; pageYOffset := pageYOffset d; page_max := page_max d |})
  | None =>
      match scroll_first scrollable_by_100 pixels (nodes d) with
      | Some (hit, els') =>
          ({| js_scrolled := true; js_selector := ByTag (tagName hit);
              js_scrollTop := node_scrollTop hit |},
           {| nodes := els'; pageYOffset := pageYOffset d; page_max := page_max d |})
      | None =>
          let y := clamp 0 (page_max d) (pageYOffset d + pixels) in
          ({| js_scrolled := true; js_selector := Window; js_scrollTop := y |},
           {| nodes := nodes d; pageYOffset := y; page_max := page_max d |})
      end
  end.

(** ** A page held still

    A session whose page does not change between two requests, except for
    the scroll offsets the scroll script writes: what each locator matches,
    what is visible and clickable, the attributes of the elements, the
    address and the ready state.  [pg_fault] lists the requests the session
    answers with an exception. *)

Record page : Type := {
  pg_elements : locator -> list element;
  pg_visible : locator -> bool;
  pg_clickable : locator -> bool;
  pg_href : element -> option string;
  pg_text : element -> string;
  pg_url : string;
  pg_ready : string;
  pg_document : document;
  pg_fault : call -> option exn
}.

Definition set_document (p : page) (d : document) : page :=
  {| pg_elements := pg_elements p;
     pg_visible := pg_visible p;
     pg_clickable := pg_clickable p;
     pg_href := pg_href p;
     pg_text := pg_text p;
     pg_url := pg_url p;
     pg_ready := pg_ready p;
     pg_document := d;
     pg_fault := pg_fault p |}.

Definition first_or {A} (l : list A) (e : exn) : res A :=
  match l with
  | x :: _ => Ok x
  | [] => Raise e
  end.

Definition page_script (p : page) (s : script) : res (script_ret s) * page :=
  match s return res (script_ret s) * page with
  | JsReadyState => (Ok (pg_ready p), p)
  | JsScrollBy pixels =>
      let (r, d) := scroll_script pixels (pg_document p) in
      (Ok (Some r), set_document p d)
  | JsClick _ => (Ok tt, p)
  | JsScrollIntoViewCenter _ => (Ok tt, p)
  | JsScrollIntoView _ => (Ok tt, p)
  end.

Definition page_answer (p : page) (c : call) : res (ret_type c) * page :=
  match c return res (ret_type c) * page with
  | DriverGet _ => (Ok tt, p)
  | DriverFindElement l => (first_or (pg_elements p l) NoSuchElementException, p)
  | DriverCurrentUrl => (Ok (pg_url p), p)
  | DriverExecuteScript s => page_script p s
  | DriverSaveScreenshot name => (Ok name, p)
  | UntilPresence _ l => (first_or (pg_elements p l) TimeoutException, p)
  | UntilPresenceAll _ l =>
      (match pg_elements p l with
       | [] => Raise TimeoutException
       | es => Ok es
       end, p)
  | UntilVisibility _ l =>
      (if pg_visible p l then first_or (pg_elements p l) TimeoutException
       else Raise TimeoutException, p)
  | UntilClickable _ l =>
      (if pg_clickable p l then first_or (pg_elements p l) TimeoutException
       else Raise TimeoutException, p)
  | UntilUrlContains _ s =>
      (if PyStr.contains s (pg_url p) then Ok true else Raise TimeoutException, p)
  | ElementGetAttribute e name =>
      (Ok (if String.eqb name "href" then pg_href p e else None), p)
  | ElementText e => (Ok (pg_text p e), p)
  | ElementClick _ => (Ok tt, p)
  | ElementClear _ => (Ok tt, p)
  | ElementSendKeys _ _ => (Ok tt, p)
  | WebdriverChrome _ _ => (Ok tt, p)
  | WebdriverFirefox _ => (Ok tt, p)
  | WebdriverEdge _ => (Ok tt, p)
  | ImplicitlyWait _ => (Ok tt, p)
  | SetPageLoadTimeout _ => (Ok tt, p)
  | SetScriptTimeout _ => (Ok tt, p)
  | MaximizeWindow => (Ok tt, p)
  | DriverQuit => (Ok tt, p)
  end.

Definition page_respond (c : call) (p : page) : res (ret_type c) * page :=
  match pg_fault p c with
  | Some e => (Raise e, p)
  | None => page_answer p c
  end.

(** A wait polls twice a second. *)
Definition page_driver : Driver page :=
  {| respond := page_respond;
     polls := fun timeout => Z.to_nat (timeout / 500) |}.

Definition start {W} (w : W) : state W := {| world := w; trace := [] |}.

Definition no_fault : call -> option exn := fun _ => None.

Definition empty_document : document :=
  {| nodes := []; pageYOffset := 0; page_max := 0 |}.

(** A page with nothing on it. *)
Definition blank_page : page :=
  {| pg_elements := fun _ => [];
     pg_visible := fun _ => false;
     pg_clickable := fun _ => false;
     pg_href := fun _ => None;
     pg_text := fun _ => EmptyString;
     pg_url := "https://www.twitch.tv/search?term=StarCraft%20II";
     pg_ready := "complete";
     pg_document := empty_document;
     pg_fault := no_fault |}.

Definition locator_eqb (a b : locator) : bool :=
  match fst a, fst b with
  | CSS_SELECTOR, CSS_SELECTOR | XPATH, XPATH | TAG_NAME, TAG_NAME =>
      String.eqb (snd a) (snd b)
  | _, _ => false
  end.

(** A search-results page whose anchors all match [LIVE_CHANNELS]: a link
    with a query and no path (0), a link that names no site (1), a channel
    (2), a sub-page of a channel (3) and a navigation link (4). *)
Definition links_page : page :=
  {| pg_elements := fun l => if locator_eqb l LIVE_CHANNELS then [0; 1; 2; 3; 4] else [];
     pg_visible := fun _ => false;
     pg_clickable := fun _ => false;
     pg_href := fun e =>
       match e with
       | 0 => Some "https://www.twitch.tv/?tab=live"
       | 1 => Some "/ninja"
       | 2 => Some "https://www.twitch.tv/ninja"
       | 3 => Some "https://www.twitch.tv/shroud/videos"
       | 4 => Some "https://www.twitch.tv/search/channels"
       | _ => None
       end;
     pg_text := fun _ => EmptyString;
     pg_url := "https://www.twitch.tv/search?term=StarCraft%20II";
     pg_ready := "complete";
     pg_document := empty_document;
     pg_fault := no_fault |}.

(** A search-results page where the first strategy matches two navigation
    links (4, 5), the second a channel (2) and a sub-page (3), and the last a
    navigation link (4). *)
Definition results_page : page :=
  {| pg_elements := fun l =>
       if locator_eqb l LIVE_CHANNELS then [4; 5]
       else if locator_eqb l STREAMER_CARDS then [2; 3]
       else if locator_eqb l (CSS_SELECTOR, "a[href^='/']") then [4]
       else [];
     pg_visible := fun _ => false;
     pg_clickable := fun _ => false;
     pg_href := fun e =>
       match e with
       | 2 => Some "https://www.twitch.tv/ninja"
       | 3 => Some "https://www.twitch.tv/shroud/videos"
       | 4 => Some "https://www.twitch.tv/search/channels"
       | 5 => Some "https://www.twitch.tv/directory"
       | _ => None
       end;
     pg_text := fun _ => EmptyString;
     pg_url := "https://www.twitch.tv/search?term=StarCraft%20II";
     pg_ready := "complete";
     pg_document := empty_document;
     pg_fault := no_fault |}.

(** A search-results page without a channel: only the last strategy matches,
    and what it matches is a navigation link. *)
Definition chrome_only_page : page :=
  {| pg_elements := fun l =>
       if locator_eqb l (CSS_SELECTOR, "a[href^='/']") then [4] else [];
     pg_visible := fun _ => false;
     pg_clickable := fun _ => false;
     pg_href := fun e =>
       match e with
       | 4 => Some "https://www.twitch.tv/search/channels"
       | _ => None
       end;
     pg_text := fun _ => EmptyString;
     pg_url := "https://www.twitch.tv/search?term=StarCraft%20II";
     pg_ready := "complete";
     pg_document := empty_document;
     pg_fault := no_fault |}.

(** A page that never finishes loading. *)
Definition loading_page : page :=
  {| pg_elements := fun _ => [];
     pg_visible := fun _ => false;
     pg_clickable := fun _ => false;
     pg_href := fun _ => None;
     pg_text := fun _ => EmptyString;
     pg_url := "https://www.twitch.tv";
     pg_ready := "loading";
     pg_document := empty_document;
     pg_fault := no_fault |}.

(** A session that is gone: every request raises. *)
Definition dead_session : page :=
  {| pg_elements := fun _ => [];
     pg_visible := fun _ => false;
     pg_clickable := fun _ => false;
     pg_href := fun _ => None;
     pg_text := fun _ => EmptyString;
     pg_url := "https://www.twitch.tv/search?term=StarCraft%20II";
     pg_ready := "complete";
     pg_document := empty_document;
     pg_fault := fun _ => Some (WebDriverException "invalid session id") |}.

(** The document-ready predicate of [wait_for_page_load]. *)
Definition ready_event (raised : option exn) : event :=
  {| ev_call := DriverExecuteScript JsReadyState; ev_raised := raised |}.

(** The test of the first loop of the scroll script, for one selector. *)
Definition scrollable_match (c : css) (el : node) : bool :=
  matches el c && isScrollable el.

(** No element of the list passes the test. *)
Definition none_passes (test : node -> bool) (els : list node) : bool :=
  forallb (fun el => negb (test el)) els.

(** [window.scrollBy(0, pixels)] *)
Definition scroll_window (pixels : Z) (d : document) : document :=
  {| nodes := nodes d;
     pageYOffset := clamp 0 (page_max d) (pageYOffset d + pixels);
     page_max := page_max d |}.

(** A results page whose list of cards scrolls inside [main]: the [html]
    element does not scroll, [main] is 800 pixels high and holds 3000. *)
Definition scrolling_document : document :=
  {| nodes :=
       [ {| matches := fun c => match c with Html => true | _ => false end;
            tagName := "HTML"; overflowY := "visible";
            scrollHeight := 800; clientHeight := 800; node_scrollTop := 0 |};
         {| matches := fun c => match c with MainRoleMain => true | _ => false end;
            tagName := "MAIN"; overflowY := "auto";
            scrollHeight := 3000; clientHeight := 800; node_scrollTop := 0 |} ];
     pageYOffset := 0;
     page_max := 0 |}.

Definition scrolling_page : page :=
  {| pg_elements := fun _ => [];
     pg_visible := fun _ => false;
     pg_clickable := fun _ => false;
     pg_href := fun _ => None;
     pg_text := fun _ => EmptyString;
     pg_url := "https://www.twitch.tv/search?term=StarCraft%20II";
     pg_ready := "complete";
     pg_document := scrolling_document;
     pg_fault := no_fault |}.

(** The request that starts the session, if the browser is a supported
    one. *)
Definition creation_request (c : config) : option call :=
  let browser := fixture_browser c in
  if String.eqb browser "chrome"
  then Some (WebdriverChrome (fixture_headless c) (opt_mobile c))
  else if String.eqb browser "firefox" then Some (WebdriverFirefox (fixture_headless c))
  else if String.eqb browser "edge" then Some (WebdriverEdge (fixture_headless c))
  else None.

Definition quit_event (x : option exn) : event :=
  {| ev_call := DriverQuit; ev_raised := x |}.

(** The defaults of the command line, and nothing in the environment. *)
Definition default_config : config :=
  {| opt_browser := "chrome";
     opt_headless := false;
     opt_mobile := false;
     env_BROWSER := None;
     env_HEADLESS := None |}.

(** A test that fails on its first assertion. *)
Definition failing_test {W} : M W unit :=
  raise (AssertionError "Search results should be displayed for valid query").

(** ** Reading a trace *)

(** Whether the classifier takes the element of a page held still. *)
Definition is_channel (p : page) (e : element) : bool :=
  truthy (channel_link_of_href (pg_href p e)).

(** The locators whose match sets were asked for with [find_elements], in
    the order of the requests. *)
Fixpoint queried (evs : list event) : list locator :=
  match evs with
  | [] => []
  | ev :: rest =>
      match ev_call ev with
      | UntilPresenceAll _ l => l :: queried rest
      | _ => queried rest
      end
  end.

(** The native clicks ([element.click()]) that were requested. *)
Fixpoint native_clicks (evs : list event) : list element :=
  match evs with
  | [] => []
  | ev :: rest =>
      match ev_call ev with
      | ElementClick e => e :: native_clicks rest
      | _ => native_clicks rest
      end
  end.

(** The script clicks that were requested. *)
Fixpoint script_clicks (evs : list event) : list element :=
  match evs with
  | [] => []
  | ev :: rest =>
      match ev_call ev with
      | DriverExecuteScript (JsClick e) => e :: script_clicks rest
      | _ => script_clicks rest
      end
  end.

(** The request is no click, native or by script. *)
Definition no_click (ev : event) : bool :=
  match ev_call ev with
  | ElementClick _ => false
  | DriverExecuteScript (JsClick _) => false
  | _ => true
  end.

(** What a click operation of the home page does: it requests no native
    click, at most one script click, and exactly one when it returns
    normally. *)
Definition script_click_only {W A} (m : M W A) : Prop :=
  forall s, exists evs : list event,
    trace (snd (m s)) = (trace s ++ evs)%list
    /\ native_clicks evs = []
    /\ List.length (script_clicks evs) <= 1
    /\ (is_ok (fst (m s)) = true -> List.length (script_clicks evs) = 1).

(** A page with the search icon (7) in place, visible and clickable, and a
    channel (2) among the results. *)
Definition clickable_page : page :=
  {| pg_elements := fun l =>
       if locator_eqb l SEARCH_ICON then [7]
       else if locator_eqb l LIVE_CHANNELS then [2]
       else [];
     pg_visible := fun _ => true;
     pg_clickable := fun _ => true;
     pg_href := fun e =>
       match e with
       | 2 => Some "https://www.twitch.tv/ninja"
       | _ => None
       end;
     pg_text := fun _ => "ninja";
     pg_url := "https://www.twitch.tv/ninja";
     pg_ready := "complete";
     pg_document := empty_document;
     pg_fault := no_fault |}.

(** A native click that was answered normally. *)
Definition ok_click (ev : event) : bool :=
  match ev_call ev, ev_raised ev with
  | ElementClick _, None => true
  | _, _ => false
  end.

(** Nothing follows the first native click that was answered normally. *)
Fixpoint stops_at_first_close (evs : list event) : bool :=
  match evs with
  | [] => true
  | ev :: rest =>
      if ok_click ev then match rest with [] => true | _ => false end
      else stops_at_first_close rest
  end.

(** The locators whose buttons were waited for, in the order of the waits. *)
Fixpoint attempted (evs : list event) : list locator :=
  match evs with
  | [] => []
  | ev :: rest =>
      match ev_call ev with
      | UntilClickable _ l => l :: attempted rest
      | _ => attempted rest
      end
  end.

(** A streamer page under two overlays: the mature-content warning, whose
    button is 11, and a dialog whose close button is 12. *)
Definition modal_page : page :=
  {| pg_elements := fun l =>
       if locator_eqb l MATURE_CONTENT_BUTTON then [11]
       else if locator_eqb l CLOSE_BUTTON then [12]
       else if locator_eqb l MODAL_CLOSE then [12]
       else [];
     pg_visible := fun _ => true;
     pg_clickable := fun _ => true;
     pg_href := fun _ => None;
     pg_text := fun _ => EmptyString;
     pg_url := "https://www.twitch.tv/ninja";
     pg_ready := "complete";
     pg_document := empty_document;
     pg_fault := no_fault |}.

(** The request does not ask for a match set. *)
Definition no_query (ev : event) : bool :=
  match ev_call ev with
  | UntilPresenceAll _ _ => false
  | _ => true
  end.

(** Whether a request names the locator. *)
Definition names (l : locator) (c : call) : bool :=
  match c with
  | DriverFindElement l' | UntilPresence _ l' | UntilPresenceAll _ l'
  | UntilVisibility _ l' | UntilClickable _ l' => locator_eqb l l'
  | _ => false
  end.

(** The request for the match set of a locator on a page held still. *)
Definition query_event (p : page) (l : locator) : event :=
  {| ev_call := UntilPresenceAll self_wait l;
     ev_raised := match pg_elements p l with
                  | [] => Some TimeoutException
                  | _ => None
                  end |}.

(** The request does not name the locator. *)
Definition avoids (l : locator) (ev : event) : bool := negb (names l (ev_call ev)).

(** The event of a request and its answer. *)
Definition event_of {A} (c : call) (r : res A) : event :=
  {| ev_call := c; ev_raised := raised r |}.

(** Every request a computation sends passes the test [P]. *)
Definition adds {W A} (P : event -> bool) (m : M W A) : Prop :=
  forall s, exists evs : list event,
    trace (snd (m s)) = (trace s ++ evs)%list /\ forallb P evs = true.

(** ** The rest of the model *)

(** *** [BasePage.type_text] *)

Section BasePageInput.

Context {W : Type} (drv : Driver W).

Definition type_text (l : locator) (text : string) (clear_first : bool) : M W unit :=
  try_except
    (e <- find_element drv l ;;
     (if clear_first then request drv (ElementClear e) else ret tt) ;;
     request drv (ElementSendKeys e (Text text)))
    (fun e => raise e).

End BasePageInput.

(** *** The loops over the overlay buttons, as runs of requests *)

Section OverlayRuns.

Context {W : Type} (drv : Driver W).

(** The requests of the loop of [handle_modals] over [selectors], from the
    session state [w]: each close button is waited for in its turn, and the
    one the wait returns is clicked; the run ends with the first click that
    is answered normally, and goes on with the next selector after a wait
    or a click that raised. *)
Inductive close_run : list locator -> W -> list event -> Prop :=
| close_run_done w : close_run [] w []
| close_run_absent selector rest w x w1 evs :
    respond drv (UntilClickable 500 selector) w = (Raise x, w1) ->
    close_run rest w1 evs ->
    close_run (selector :: rest) w
      ({| ev_call := UntilClickable 500 selector; ev_raised := Some x |} :: evs)
| close_run_closed selector rest w b w1 w2 :
    respond drv (UntilClickable 500 selector) w = (Ok b, w1) ->
    respond drv (ElementClick b) w1 = (Ok tt, w2) ->
    close_run (selector :: rest) w
      [ {| ev_call := UntilClickable 500 selector; ev_raised := None |};
        {| ev_call := ElementClick b; ev_raised := None |} ]
| close_run_failed selector rest w b w1 x w2 evs :
    respond drv (UntilClickable 500 selector) w = (Ok b, w1) ->
    respond drv (ElementClick b) w1 = (Raise x, w2) ->
    close_run rest w2 evs ->
    close_run (selector :: rest) w
      ({| ev_call := UntilClickable 500 selector; ev_raised := None |}
       :: {| ev_call := ElementClick b; ev_raised := Some x |} :: evs).

(** The requests of the loop of [handle_cookie_consent] over [selectors],
    from the session state [w]: each button is waited for to be visible in
    its turn; one that is seen is waited for to be clickable, and the
    element this wait returns is clicked; the run ends with the first click
    that is answered normally, and goes on with the next selector after a
    request that raised. *)
Inductive consent_run : list locator -> W -> list event -> Prop :=
| consent_run_done w : consent_run [] w []
| consent_run_unseen selector rest w x w1 evs :
    respond drv (UntilVisibility 1000 selector) w = (Raise x, w1) ->
    consent_run rest w1 evs ->
    consent_run (selector :: rest) w
      ({| ev_call := UntilVisibility 1000 selector; ev_raised := Some x |} :: evs)
| consent_run_blocked selector rest w v w1 x w2 evs :
    respond drv (UntilVisibility 1000 selector) w = (Ok v, w1) ->
    respond drv (UntilClickable 5000 selector) w1 = (Raise x, w2) ->
    consent_run rest w2 evs ->
    consent_run (selector :: rest) w
      ({| ev_call := UntilVisibility 1000 selector; ev_raised := None |}
       :: {| ev_call := UntilClickable 5000 selector; ev_raised := Some x |} :: evs)
| consent_run_accepted selector rest w v w1 b w2 w3 :
    respond drv (UntilVisibility 1000 selector) w = (Ok v, w1) ->
    respond drv (UntilClickable 5000 selector) w1 = (Ok b, w2) ->
    respond drv (ElementClick b) w2 = (Ok tt, w3) ->
    consent_run (selector :: rest) w
      [ {| ev_call := UntilVisibility 1000 selector; ev_raised := None |};
        {| ev_call := UntilClickable 5000 selector; ev_raised := None |};
        {| ev_call := ElementClick b; ev_raised := None |} ]
| consent_run_failed selector rest w v w1 b w2 x w3 evs :
    respond drv (UntilVisibility 1000 selector) w = (Ok v, w1) ->
    respond drv (UntilClickable 5000 selector) w1 = (Ok b, w2) ->
    respond drv (ElementClick b) w2 = (Raise x, w3) ->
    consent_run rest w3 evs ->
    consent_run (selector :: rest) w
      ({| ev_call := UntilVisibility 1000 selector; ev_raised := None |}
       :: {| ev_call := UntilClickable 5000 selector; ev_raised := None |}
       :: {| ev_call := ElementClick b; ev_raised := Some x |} :: evs).

(** [e] is the search field [enter_search_query] resolves from the session
    state [w]: what the presence wait returns for [SEARCH_INPUT] once that
    locator was seen visible, or for [SEARCH_INPUT_ALT] once the first
    visibility wait timed out and the second one succeeded. *)
Definition search_field_of (w : W) (e : element) : Prop :=
  (exists v w1 w2,
      respond drv (UntilVisibility 5000 SEARCH_INPUT) w = (Ok v, w1)
      /\ respond drv (UntilPresence 5000 SEARCH_INPUT) w1 = (Ok e, w2))
  \/ (exists w1 v w2 w3,
         respond drv (UntilVisibility 5000 SEARCH_INPUT) w = (Raise TimeoutException, w1)
         /\ respond drv (UntilVisibility 5000 SEARCH_INPUT_ALT) w1 = (Ok v, w2)
         /\ respond drv (UntilPresence 5000 SEARCH_INPUT_ALT) w2 = (Ok e, w3)).

End OverlayRuns.

(** *** More readings of a trace *)

(** The request was answered normally. *)
Definition answered (ev : event) : bool :=
  match ev_raised ev with
  | None => true
  | Some _ => false
  end.

(** [evs] is a run of the requests [cs] that ended with [r]: the requests
    were made in this order, each after the one before it was answered
    normally; all of them were made when [r] is [None], and when [r] is an
    exception it is the one the last request made was answered with. *)
Fixpoint run_of (cs : list call) (evs : list event) (r : option exn) : Prop :=
  match cs, evs with
  | [], [] => r = None
  | c :: cs', ev :: evs' =>
      ev_call ev = c
      /\ match ev_raised ev with
         | None => run_of cs' evs' r
         | Some x => evs' = [] /\ r = Some x
         end
  | _, _ => False
  end.

(** One run of the scroll script. *)
Definition scroll_event (pixels : Z) (x : option exn) : event :=
  {| ev_call := DriverExecuteScript (JsScrollBy pixels); ev_raised := x |}.

(** The locators whose visibility was waited for, in the order of the waits. *)
Fixpoint looked_for (evs : list event) : list locator :=
  match evs with
  | [] => []
  | ev :: rest =>
      match ev_call ev with
      | UntilVisibility _ l => l :: looked_for rest
      | _ => looked_for rest
      end
  end.

(** The request asks for a match set or reads an [href]. *)
Definition reads (ev : event) : bool :=
  match ev_call ev with
  | UntilPresenceAll _ _ => true
  | ElementGetAttribute _ name => String.eqb name "href"
  | _ => false
  end.

(** The names of the screenshots asked for, in order. *)
Fixpoint screenshots (evs : list event) : list string :=
  match evs with
  | [] => []
  | ev :: rest =>
      match ev_call ev with
      | DriverSaveScreenshot name => name :: screenshots rest
      | _ => screenshots rest
      end
  end.

(** The scripts handed to the session, in order. *)
Fixpoint scripts (evs : list event) : list script :=
  match evs with
  | [] => []
  | ev :: rest =>
      match ev_call ev with
      | DriverExecuteScript s => s :: scripts rest
      | _ => scripts rest
      end
  end.

(** The request runs no script and clicks nothing. *)
Definition quiet (ev : event) : bool :=
  match ev_call ev with
  | DriverExecuteScript _ => false
  | ElementClick _ => false
  | _ => true
  end.

(** The clicks, clearings and keystrokes sent to elements, in order. *)
Fixpoint field_calls (evs : list event) : list call :=
  match evs with
  | [] => []
  | ev :: rest =>
      match ev_call ev with
      | ElementClick _ | ElementClear _ | ElementSendKeys _ _ =>
          ev_call ev :: field_calls rest
      | _ => field_calls rest
      end
  end.

(** What [enter_search_query] does to the search field [e]. *)
Definition search_keystrokes (e : element) (query : string) : list call :=
  [ElementClick e; ElementClear e; ElementSendKeys e (Text query);
   ElementSendKeys e ENTER].

(** The requests of the fixture between the creation of the session and
    [yield]. *)
Definition configuration (mobile : bool) : list call :=
  ImplicitlyWait 1 :: SetPageLoadTimeout 8 :: SetScriptTimeout 5
  :: (if mobile then [] else [MaximizeWindow]).

(** The last entry of [selectors_to_try]. *)
Definition ANY_LINK : locator := (CSS_SELECTOR, "a[href^='/']").

(** A page where two listed containers scroll: [body], which stands
    first in the document, and [#root] inside it, which stands first in the
    list of selectors; [main] is there and does not scroll. *)
Definition competing_document : document :=
  {| nodes :=
       [ {| matches := fun c => match c with Html => true | _ => false end;
            tagName := "HTML"; overflowY := "visible";
            scrollHeight := 800; clientHeight := 800; node_scrollTop := 0 |};
         {| matches := fun c => match c with Body => true | _ => false end;
            tagName := "BODY"; overflowY := "auto";
            scrollHeight := 4000; clientHeight := 800; node_scrollTop := 0 |};
         {| matches := fun c => match c with Root => true | _ => false end;
            tagName := "DIV"; overflowY := "scroll";
            scrollHeight := 3000; clientHeight := 800; node_scrollTop := 0 |};
         {| matches := fun c => match c with MainRoleMain => true | _ => false end;
            tagName := "MAIN"; overflowY := "visible";
            scrollHeight := 3000; clientHeight := 3000; node_scrollTop := 0 |} ];
     pageYOffset := 0;
     page_max := 0 |}.

(** A search-results page with eleven channels under the first strategy. *)
Definition busy_page : page :=
  {| pg_elements := fun l =>
       if locator_eqb l LIVE_CHANNELS then [1; 2; 3; 4; 5; 6; 7; 8; 9; 10; 11] else [];
     pg_visible := fun _ => false;
     pg_clickable := fun _ => false;
     pg_href := fun _ => Some "https://www.twitch.tv/ninja";
     pg_text := fun _ => EmptyString;
     pg_url := "https://www.twitch.tv/search?term=StarCraft%20II";
     pg_ready := "complete";
     pg_document := empty_document;
     pg_fault := no_fault |}.

(** The defaults of the command line under [BROWSER=Chrome]. *)
Definition capitalised_config : config :=
  {| opt_browser := "chrome";
     opt_headless := false;
     opt_mobile := false;
     env_BROWSER := Some "Chrome";
     env_HEADLESS := None |}.

(** * Properties *)

(** ** Sanity checks of the string primitives and the classifier *)

Example split_ninja :
  PyStr.split "twitch.tv/" "https://www.twitch.tv/ninja/videos"
  = ["https://www."; "ninja/videos"].
Proof. reflexivity. Qed.

Example split_keeps_empty_pieces :
  PyStr.split "/" "a//b/" = ["a"; EmptyString; "b"; EmptyString].
Proof. reflexivity. Qed.

Example split_without_separator :
  PyStr.split "twitch.tv/" "/ninja" = ["/ninja"].
Proof. reflexivity. Qed.

Example strip_both_ends :
  PyStr.strip "/" "//ninja/videos//" = "ninja/videos".
Proof. reflexivity. Qed.

Example path_after_last_site_name :
  href_path "https://www.twitch.tv/search?next=twitch.tv/ninja/" = "ninja".
Proof. reflexivity. Qed.

Example classify_settings_profile :
  channel_link_of_href (Some "https://www.twitch.tv/settings/profile") = PyBool false.
Proof. reflexivity. Qed.

Example classify_one_character :
  channel_link_of_href (Some "https://www.twitch.tv/x") = PyBool false.
Proof. reflexivity. Qed.

Example classify_ninja :
  channel_link_of_href (Some "https://www.twitch.tv/ninja") = PyBool true.
Proof. reflexivity. Qed.

Example classify_ninja_videos :
  channel_link_of_href (Some "https://www.twitch.tv/ninja/videos") = PyBool false.
Proof. reflexivity. Qed.

Example classify_search_channels :
  channel_link_of_href (Some "https://www.twitch.tv/search/channels") = PyBool false.
Proof. reflexivity. Qed.

(** With a query or a fragment the first segment is compared together with
    it, and an excluded root is not recognised. *)
Example classify_search_with_query :
  channel_link_of_href (Some "https://www.twitch.tv/search?term=StarCraft") = PyBool true
  /\ channel_link_of_href (Some "https://www.twitch.tv/settings#profile") = PyBool true.
Proof. split; reflexivity. Qed.

(** ** The string primitives *)

Lemma lstrip_head chars s c r :
  PyStr.lstrip chars s = String c r -> PyStr.mem_char c chars = false.
Proof.
  induction s as [|a s IH]; simpl; [discriminate|].
  destruct (PyStr.mem_char a chars) eqn:E; [exact IH|].
  intros H; inversion H; subst; exact E.
Qed.

Lemma rstrip_head chars s c r :
  PyStr.rstrip chars s = String c r -> exists s', s = String c s'.
Proof.
  destruct s as [|a s]; simpl; [discriminate|].
  destruct (PyStr.rstrip chars s); [destruct (PyStr.mem_char a chars)|];
    intros H; inversion H; subst; eauto.
Qed.

Lemma strip_head chars s c r :
  PyStr.strip chars s = String c r -> PyStr.mem_char c chars = false.
Proof.
  unfold PyStr.strip; intros H.
  destruct (rstrip_head _ _ H) as [s' Hs'].
  exact (lstrip_head _ _ Hs').
Qed.

Lemma string_of_rev_nonempty (cur : list ascii) :
  cur <> [] -> string_of_list_ascii (rev cur) <> EmptyString.
Proof.
  intros Hc H.
  assert (L : String.length (string_of_list_ascii (rev cur)) = List.length cur).
  { clear. rewrite <- (length_rev cur). induction (rev cur); simpl; congruence. }
  rewrite H in L; destruct cur; [congruence | discriminate].
Qed.

Lemma split_from_head_nonempty sep s :
  forall cur, cur <> [] -> hd EmptyString (PyStr.split_from sep 0 cur s) <> EmptyString.
Proof.
  induction s as [|c s IH]; intros cur Hc; cbn [PyStr.split_from].
  - now apply string_of_rev_nonempty.
  - destruct (prefix sep (String c s)); cbn [hd].
    + now apply string_of_rev_nonempty.
    + apply IH; discriminate.
Qed.

Lemma prefix_single a c r :
  prefix (String a EmptyString) (String c r) = true -> a = c.
Proof.
  simpl; destruct (ascii_dec a c); [auto | discriminate].
Qed.

(** After [strip("/")] a non-empty path starts with a channel name. *)
Lemma channel_name_nonempty s :
  PyStr.strip "/" s <> EmptyString ->
  channel_name (path_segments (PyStr.strip "/" s)) <> EmptyString.
Proof.
  intros Hne.
  destruct (PyStr.strip "/" s) as [|c r] eqn:E; [congruence|].
  apply strip_head in E.
  unfold channel_name, path_segments, PyStr.split; cbn [PyStr.split_from].
  destruct (prefix "/" (String c r)) eqn:P.
  - apply prefix_single in P; subst c; discriminate E.
  - apply split_from_head_nonempty; discriminate.
Qed.

Lemma href_channel_name_nonempty h :
  href_path h <> EmptyString ->
  channel_name (path_segments (href_path h)) <> EmptyString.
Proof.
  exact (channel_name_nonempty (PyStr.last_piece (PyStr.split "twitch.tv/" h))).
Qed.

(** ** The classifier *)

Lemma is_valid_bool segments :
  channel_name segments <> EmptyString ->
  is_valid segments = PyBool (path_shape_ok segments).
Proof.
  intros Hne; unfold is_valid, path_shape_ok, py_and; cbn [truthy].
  destruct (String.eqb_spec (channel_name segments) EmptyString) as [E|_];
    [contradiction|].
  destruct (PyStr.mem (channel_name segments) exclude_patterns);
    destruct (Nat.ltb 1 (String.length (channel_name segments))); reflexivity.
Qed.

Lemma channel_link_of_href_bool href :
  exists b, channel_link_of_href href = PyBool b.
Proof.
  destruct href as [h|]; cbn [channel_link_of_href]; [|eauto].
  destruct (String.eqb h EmptyString || negb (PyStr.contains "twitch.tv/" h)); [eauto|].
  destruct (String.eqb_spec (href_path h) EmptyString) as [E|E]; cbn [orb]; [eauto|].
  destruct (PyStr.startswith "?" (href_path h)); [eauto|].
  rewrite (is_valid_bool _ (href_channel_name_nonempty h E)).
  eauto.
Qed.

Lemma channel_link_of_href_true_iff href :
  channel_link_of_href href = PyBool true <->
  exists h, href = Some h
            /\ PyStr.contains "twitch.tv/" h = true
            /\ PyStr.startswith "?" (href_path h) = false
            /\ path_shape_ok (path_segments (href_path h)) = true.
Proof.
  split.
  - destruct href as [h|]; cbn [channel_link_of_href]; [|discriminate].
    destruct (String.eqb h EmptyString); cbn [orb]; [discriminate|].
    destruct (PyStr.contains "twitch.tv/" h) eqn:Ec; cbn [negb]; [|discriminate].
    destruct (String.eqb_spec (href_path h) EmptyString) as [E|E]; cbn [orb];
      [discriminate|].
    destruct (PyStr.startswith "?" (href_path h)) eqn:Eq; [discriminate|].
    rewrite (is_valid_bool _ (href_channel_name_nonempty h E)).
    intros H; injection H as H; exists h; auto.
  - intros (h & -> & Hc & Hq & Hs); cbn [channel_link_of_href].
    destruct (String.eqb_spec h EmptyString) as [->|_]; [discriminate Hc|].
    rewrite Hc, Hq; cbn [orb negb].
    destruct (String.eqb_spec (href_path h) EmptyString) as [E|E]; cbn [orb].
    + rewrite E in Hs; discriminate Hs.
    + rewrite (is_valid_bool _ (href_channel_name_nonempty h E)).
      now rewrite Hs.
Qed.








Section EngineFacts.

Context {W : Type} (drv : Driver W).

(** What [_is_channel_link] returns, by the answer to its one request. *)
Lemma is_channel_link_run e s :
  fst (_is_channel_link drv e s)
  = Ok match fst (respond drv (ElementGetAttribute e "href") (world s)) with
       | Ok href => channel_link_of_href href
       | Raise _ => PyBool false
       end.
Proof.
  unfold _is_channel_link, try_except, bind, request, ret.
  destruct (respond drv (ElementGetAttribute e "href") (world s)) as [[href|x] w'];
    reflexivity.
Qed.


(** C10.  The classifier always returns a boolean and never raises; it
    returns [False] when reading the attribute raises, when the [href] is
    absent, when it does not contain [twitch.tv/], and when its path is
    empty or starts with a question mark. *)
Theorem is_channel_link_total e s :
  (exists b, fst (_is_channel_link drv e s) = Ok (PyBool b))
  /\ (match fst (respond drv (ElementGetAttribute e "href") (world s)) with
      | Raise _ => True
      | Ok None => True
      | Ok (Some h) =>
          PyStr.contains "twitch.tv/" h = false
          \/ href_path h = EmptyString
          \/ PyStr.startswith "?" (href_path h) = true
      end ->
      fst (_is_channel_link drv e s) = Ok (PyBool false)).
Proof.
  rewrite is_channel_link_run.
  destruct (fst (respond drv (ElementGetAttribute e "href") (world s)))
    as [href|x]; [|split; eauto].
  split.
  - destruct (channel_link_of_href_bool href) as [b ->]; eauto.
  - destruct href as [h|]; [|reflexivity].
    intros H; f_equal; cbn [channel_link_of_href].
    destruct (String.eqb h EmptyString); [reflexivity|]; cbn [orb].
    destruct (PyStr.contains "twitch.tv/" h) eqn:Ec; cbn [negb]; [|reflexivity].
    destruct H as [H|[H|H]]; [discriminate H | |]; rewrite H.
    * reflexivity.
    * now rewrite orb_true_r.
Qed.

End EngineFacts.

(** Sub-paths are rejected whatever their first segment. *)
Lemma sub_paths_rejected h :
  2 <= List.length (path_segments (href_path h)) ->
  channel_link_of_href (Some h) <> PyBool true.
Proof.
  intros Hlen H.
  apply channel_link_of_href_true_iff in H.
  destruct H as (h' & E & _ & _ & Hs); injection E as <-.
  unfold path_shape_ok in Hs.
  apply andb_prop in Hs; destruct Hs as [_ Hs].
  apply Nat.eqb_eq in Hs; lia.
Qed.



Lemma is_channel_link_total_witness :
  fst (_is_channel_link page_driver 0 (start links_page)) = Ok (PyBool false).
Proof.
  apply (proj2 (is_channel_link_total page_driver 0 (start links_page))).
  right; right; reflexivity.
Defined.

(** ** What a computation adds to the trace *)

Section Adds.

Context {W : Type} (drv : Driver W) (P : event -> bool).

Lemma adds_ret A (a : A) : adds P (ret (W:=W) a).
Proof. intros s; exists []; cbn; rewrite app_nil_r; auto. Qed.

Lemma adds_raise A e : adds P (raise (W:=W) (A:=A) e).
Proof. intros s; exists []; cbn; rewrite app_nil_r; auto. Qed.

Lemma adds_request c :
  (forall x, P {| ev_call := c; ev_raised := x |} = true) ->
  adds P (request drv c).
Proof.
  intros Hc s; unfold request.
  destruct (respond drv c (world s)) as [r w'].
  exists [{| ev_call := c; ev_raised := raised r |}]; cbn; rewrite Hc; auto.
Qed.

Lemma adds_bind A B (m : M W A) (k : A -> M W B) :
  adds P m -> (forall a, adds P (k a)) -> adds P (bind m k).
Proof.
  intros Hm Hk s; unfold bind.
  destruct (Hm s) as (evs1 & T1 & F1).
  destruct (m s) as [[a|e] s1]; cbn [snd] in T1.
  - destruct (Hk a s1) as (evs2 & T2 & F2).
    exists (evs1 ++ evs2)%list; rewrite T2, T1, app_assoc, forallb_app, F1, F2; auto.
  - exists evs1; auto.
Qed.

Lemma adds_try_except A (body : M W A) (handler : exn -> M W A) :
  adds P body -> (forall e, adds P (handler e)) -> adds P (try_except body handler).
Proof.
  intros Hm Hk s; unfold try_except.
  destruct (Hm s) as (evs1 & T1 & F1).
  destruct (body s) as [[a|e] s1]; cbn [snd] in T1.
  - exists evs1; auto.
  - destruct (Hk e s1) as (evs2 & T2 & F2).
    exists (evs1 ++ evs2)%list; rewrite T2, T1, app_assoc, forallb_app, F1, F2; auto.
Qed.

Lemma adds_on_timeout A (h : M W A) e : adds P h -> adds P (on_timeout h e).
Proof. intros H; destruct e; cbn; auto using adds_raise. Qed.

Lemma adds_on_no_such_element A (h : M W A) e :
  adds P h -> adds P (on_no_such_element h e).
Proof. intros H; destruct e; cbn; auto using adds_raise. Qed.

Lemma adds_until_loop n (method : M W bool) :
  adds P method -> adds P (until_loop n method).
Proof.
  intros Hm; induction n as [|n IH]; intros s; cbn [until_loop];
    destruct (Hm s) as (evs1 & T1 & F1);
    destruct (method s) as [[[|]|e] s1]; cbn [snd] in T1;
    try destruct (ignored_by_wait e); eauto.
  - destruct (IH s1) as (evs2 & T2 & F2).
    exists (evs1 ++ evs2)%list; rewrite T2, T1, app_assoc, forallb_app, F1, F2; auto.
  - destruct (IH s1) as (evs2 & T2 & F2).
    exists (evs1 ++ evs2)%list; rewrite T2, T1, app_assoc, forallb_app, F1, F2; auto.
Qed.

End Adds.

Ltac adds_step :=
  match goal with
  | |- adds _ (ret _) => apply adds_ret
  | |- adds _ (raise _) => apply adds_raise
  | |- adds ?P (request ?d ?c) => apply (@adds_request _ d P c); intros; reflexivity
  | |- adds _ (bind _ _) => apply adds_bind; [|intros]
  | |- adds _ (try_except _ _) => apply adds_try_except; [|intros]
  | |- adds _ (on_timeout _ _) => apply adds_on_timeout
  | |- adds _ (on_no_such_element _ _) => apply adds_on_no_such_element
  | |- adds _ (until_loop _ _) => apply adds_until_loop
  | |- adds _ (WebDriverWait_until _ _ _) =>
      unfold WebDriverWait_until; apply adds_until_loop
  | |- adds _ (if ?b then _ else _) => destruct b
  | |- adds _ (match ?x with _ => _ end) => destruct x
  end.

Ltac adds_tac := repeat adds_step.

Lemma queried_app evs1 evs2 :
  queried (evs1 ++ evs2) = (queried evs1 ++ queried evs2)%list.
Proof.
  induction evs1 as [|ev evs1 IH]; cbn; [reflexivity|].
  destruct (ev_call ev); cbn; now rewrite ?IH.
Qed.

(** ** The result strategies on a page held still *)

Lemma page_request p t c :
  pg_fault p c = None ->
  request page_driver c {| world := p; trace := t |}
  = (fst (page_answer p c),
     {| world := snd (page_answer p c);
        trace := (t ++ [event_of c (fst (page_answer p c))])%list |}).
Proof.
  intros Hf; unfold request; cbn [respond page_driver world trace].
  unfold page_respond; rewrite Hf.
  destruct (page_answer p c); reflexivity.
Qed.

Section Held.

Variable p : page.
Hypothesis Hf : forall c, pg_fault p c = None.

(** The channel links among what a strategy matches. *)
Let links (l : locator) : list element := filter (is_channel p) (pg_elements p l).

Lemma page_find_elements t l :
  find_elements page_driver l {| world := p; trace := t |}
  = (Ok (pg_elements p l), {| world := p; trace := (t ++ [query_event p l])%list |}).
Proof.
  unfold find_elements, try_except.
  rewrite page_request by apply Hf.
  unfold query_event; cbn.
  destruct (pg_elements p l); reflexivity.
Qed.

Lemma page_is_channel_link t e :
  _is_channel_link page_driver e {| world := p; trace := t |}
  = (Ok (channel_link_of_href (pg_href p e)),
     {| world := p;
        trace := (t ++ [{| ev_call := ElementGetAttribute e "href";
                           ev_raised := None |}])%list |}).
Proof.
  unfold _is_channel_link, try_except, bind.
  rewrite page_request by apply Hf; reflexivity.
Qed.

Lemma page_filter_channel_links cards :
  forall t, exists evs,
    filter_channel_links page_driver cards {| world := p; trace := t |}
    = (Ok (filter (is_channel p) cards), {| world := p; trace := (t ++ evs)%list |})
    /\ queried evs = [].
Proof.
  induction cards as [|card rest IH]; intros t.
  - exists []; cbn; rewrite app_nil_r; auto.
  - cbn [filter_channel_links]; unfold bind at 1.
    rewrite page_is_channel_link.
    destruct (IH (t ++ [{| ev_call := ElementGetAttribute card "href";
                           ev_raised := None |}])%list) as (evs & E & Q).
    unfold bind at 1; rewrite E; unfold ret.
    exists ({| ev_call := ElementGetAttribute card "href"; ev_raised := None |} :: evs).
    split; [|exact Q].
    cbn [filter]; unfold is_channel at 1; rewrite <- app_assoc; reflexivity.
Qed.

(** A strategy without a channel link in its match set is passed over: the
    loop goes on with what it matched in [cards]. *)
Lemma page_loop_step_miss sel rest cards0 t :
  links sel = [] ->
  exists evs,
    streamer_cards_loop page_driver (sel :: rest) cards0 {| world := p; trace := t |}
    = streamer_cards_loop page_driver rest (pg_elements p sel)
        {| world := p; trace := (t ++ evs)%list |}
    /\ queried evs = [sel].
Proof.
  intros Hmiss; cbn [streamer_cards_loop]; unfold bind at 1.
  rewrite page_find_elements.
  destruct (pg_elements p sel) as [|c cs] eqn:E.
  - exists [query_event p sel]; split; reflexivity.
  - destruct (@page_filter_channel_links (c :: cs) (t ++ [query_event p sel])%list)
      as (evs & Ef & Q).
    unfold bind at 1; rewrite Ef.
    unfold links in Hmiss; rewrite E in Hmiss; rewrite Hmiss.
    exists (query_event p sel :: evs); split.
    + rewrite <- app_assoc; reflexivity.
    + cbn; now rewrite Q.
Qed.

(** A strategy with a channel link in its match set ends the loop. *)
Lemma page_loop_step_hit sel rest cards0 t :
  links sel <> [] ->
  exists evs,
    streamer_cards_loop page_driver (sel :: rest) cards0 {| world := p; trace := t |}
    = (Ok (links sel), {| world := p; trace := (t ++ evs)%list |})
    /\ queried evs = [sel].
Proof.
  intros Hhit; cbn [streamer_cards_loop]; unfold bind at 1.
  rewrite page_find_elements.
  unfold links in *.
  destruct (pg_elements p sel) as [|c cs] eqn:E; [now elim Hhit|].
  destruct (@page_filter_channel_links (c :: cs) (t ++ [query_event p sel])%list)
    as (evs & Ef & Q).
  unfold bind at 1; rewrite Ef.
  destruct (filter (is_channel p) (c :: cs)) as [|k ks] eqn:F; [now elim Hhit|].
  exists (query_event p sel :: evs); split.
  - unfold ret; rewrite <- app_assoc; reflexivity.
  - cbn; now rewrite Q.
Qed.

Lemma page_loop_hit pre sel post :
  (forall l, In l pre -> links l = []) ->
  links sel <> [] ->
  forall cards0 t, exists evs,
    streamer_cards_loop page_driver (pre ++ sel :: post) cards0 {| world := p; trace := t |}
    = (Ok (links sel), {| world := p; trace := (t ++ evs)%list |})
    /\ queried evs = (pre ++ [sel])%list.
Proof.
  intros Hpre Hhit; induction pre as [|l pre IH]; intros cards0 t.
  - now apply page_loop_step_hit.
  - destruct (@page_loop_step_miss l (pre ++ sel :: post) cards0 t) as (evs1 & E1 & Q1).
    { apply Hpre; now left. }
    destruct (IH (fun l' H => Hpre l' (or_intror H)) (pg_elements p l) (t ++ evs1)%list)
      as (evs2 & E2 & Q2).
    exists (evs1 ++ evs2)%list; split.
    + cbn [app]; rewrite E1, E2, app_assoc; reflexivity.
    + rewrite queried_app, Q1, Q2; reflexivity.
Qed.

Lemma page_loop_miss sels :
  (forall l, In l sels -> links l = []) ->
  forall cards0 t, exists evs,
    streamer_cards_loop page_driver sels cards0 {| world := p; trace := t |}
    = (Ok (first_ten (fold_left (fun _ l => pg_elements p l) sels cards0)),
       {| world := p; trace := (t ++ evs)%list |})
    /\ queried evs = sels.
Proof.
  induction sels as [|l sels IH]; intros Hall cards0 t.
  - exists []; cbn; rewrite app_nil_r; auto.
  - destruct (@page_loop_step_miss l sels cards0 t) as (evs1 & E1 & Q1).
    { apply Hall; now left. }
    destruct (IH (fun l' H => Hall l' (or_intror H)) (pg_elements p l) (t ++ evs1)%list)
      as (evs2 & E2 & Q2).
    exists (evs1 ++ evs2)%list; split.
    + rewrite E1, E2, app_assoc; reflexivity.
    + rewrite queried_app, Q1, Q2; reflexivity.
Qed.

(** Either no strategy matches a channel link, or there is a first one that
    does. *)
Lemma first_hit_or_none sels :
  (forall l, In l sels -> links l = [])
  \/ exists pre sel post,
      sels = (pre ++ sel :: post)%list
      /\ (forall l, In l pre -> links l = [])
      /\ links sel <> [].
Proof.
  induction sels as [|l sels IH].
  - left; intros l [].
  - destruct (links l) as [|k ks] eqn:E.
    + destruct IH as [Hnone | (pre & sel & post & -> & Hpre & Hsel)].
      * left; intros l' [<-|H]; auto.
      * right; exists (l :: pre), sel, post; repeat split; auto.
        intros l' [<-|H]; auto.
    + right; exists [], l, sels; repeat split; [intros l' [] | congruence].
Qed.

End Held.





Lemma no_query_queried evs : forallb no_query evs = true -> queried evs = [].
Proof.
  induction evs as [|ev evs IH]; cbn; [auto|].
  unfold no_query at 1; destruct (ev_call ev); cbn; try discriminate; exact IH.
Qed.

(** Whatever the session answers, the match sets are asked for in the listed
    order of the strategies. *)

Section Order.

Context {W : Type} (drv : Driver W).

Lemma filter_channel_links_no_query cards :
  adds no_query (filter_channel_links drv cards).
Proof.
  induction cards as [|card rest IH]; cbn [filter_channel_links];
    unfold _is_channel_link; adds_tac; exact IH.
Qed.

Ltac rewrite_traces :=
  repeat match goal with
         | H : trace _ = _ |- _ => rewrite H; clear H
         end.

Ltac close_queried :=
  split; [repeat rewrite <- app_assoc; reflexivity|];
  cbn; rewrite ?queried_app; cbn;
  repeat match goal with
         | H : queried _ = _ |- _ => rewrite H; clear H
         end;
  reflexivity.

Ltac close_order IH :=
  repeat match goal with
         | H : forallb no_query _ = true |- _ => apply no_query_queried in H
         end;
  first
    [ match goal with
      | |- context [streamer_cards_loop _ ?rest ?c ?s'] =>
          let evs := fresh "evs" in
          let k := fresh "k" in
          let T := fresh "T" in
          let Q := fresh "Q" in
          destruct (IH c s') as (evs & k & T & Q); cbn [trace] in T;
          rewrite T; clear T; rewrite_traces;
          eexists; exists (S k); close_queried
      end
    | rewrite_traces; eexists; exists 1; close_queried ].

Lemma streamer_cards_loop_in_order selectors :
  forall cards s, exists evs k,
    trace (snd (streamer_cards_loop drv selectors cards s)) = (trace s ++ evs)%list
    /\ queried evs = firstn k selectors.
Proof.
  induction selectors as [|sel rest IH]; intros cards s; cbn [streamer_cards_loop].
  - exists [], 0; cbn; rewrite app_nil_r; auto.
  - pose proof filter_channel_links_no_query as Hfl.
    generalize dependent (filter_channel_links drv); intros links_of Hfl.
    unfold find_elements, try_except, bind, request, on_timeout, ret, raise.
    destruct (respond drv (UntilPresenceAll self_wait sel) (world s)) as [[cs|x] w1];
      [destruct cs as [|c cs]|destruct x]; cbn.
    2: { match goal with
         | |- context [links_of ?l ?s'] =>
             destruct (Hfl l s') as (evsf & Tf & Ff);
             destruct (links_of l s') as [[[|k ks]|x] s2];
             cbn [snd trace] in Tf; cbn
         end; close_order IH. }
    all: close_order IH.
Qed.

Lemma get_live_streamer_cards_in_order s :
  exists evs k,
    trace (snd (get_live_streamer_cards drv s)) = (trace s ++ evs)%list
    /\ queried evs = firstn k selectors_to_try.
Proof.
  destruct (streamer_cards_loop_in_order selectors_to_try [] s) as (evs & k & T & Q).
  exists evs, k; split; [|exact Q].
  unfold get_live_streamer_cards, try_except.
  destruct (streamer_cards_loop drv selectors_to_try [] s) as [[cards|e] s']; exact T.
Qed.

End Order.

(** When the first locator of the search field is visible, nothing is asked
    about the alternative one. *)
Lemma enter_search_query_first_visible W (drv : Driver W) query s e w' :
  respond drv (UntilVisibility 5000 SEARCH_INPUT) (world s) = (Ok e, w') ->
  exists evs,
    trace (snd (enter_search_query drv query s)) = (trace s ++ evs)%list
    /\ forallb (avoids SEARCH_INPUT_ALT) evs = true.
Proof.
  intros Hr.
  pose (s1 := {| world := w';
                 trace := (trace s ++ [{| ev_call := UntilVisibility 5000 SEARCH_INPUT;
                                          ev_raised := None |}])%list |}).
  assert (Hvis : is_element_visible drv SEARCH_INPUT 5000 s = (Ok true, s1)).
  { unfold is_element_visible, try_except, bind, request; rewrite Hr; reflexivity. }
  unfold enter_search_query.
  match goal with
  | |- context [try_except (bind ?m ?k) ?h s] =>
      assert (A : adds (avoids SEARCH_INPUT_ALT) (try_except (k true) h))
        by (unfold find_element, take_screenshot, get_current_url; adds_tac);
      assert (E : try_except (bind m k) h s = try_except (k true) h s1)
        by (unfold try_except, bind; rewrite Hvis; reflexivity)
  end.
  rewrite E; destruct (A s1) as (evs & T & F).
  exists ({| ev_call := UntilVisibility 5000 SEARCH_INPUT; ev_raised := None |} :: evs).
  split; [rewrite T; subst s1; cbn [trace]; rewrite <- app_assoc; reflexivity|].
  cbn [forallb]; rewrite F; reflexivity.
Qed.

(** C3, as amended.  On a page held still, [get_live_streamer_cards] asks
    for the match sets of the strategies in their listed order up to the
    first one whose match set holds a link the classifier takes, returns
    exactly the links of that match set that the classifier takes, and asks
    for no later strategy; the strategies before it, whose match sets hold
    no such link, empty or not, do not end the resolution.  Whatever the
    session answers, the strategies asked for are the first ones of the
    list, in its order.  In [enter_search_query], whatever the session does,
    nothing is asked about the alternative locator of the search field once
    the first one is visible. *)
Theorem first_strategy_with_a_channel_link_wins :
  (forall p t pre sel post,
      (forall c, pg_fault p c = None) ->
      selectors_to_try = (pre ++ sel :: post)%list ->
      (forall l, In l pre -> filter (is_channel p) (pg_elements p l) = []) ->
      filter (is_channel p) (pg_elements p sel) <> [] ->
      exists evs,
        get_live_streamer_cards page_driver {| world := p; trace := t |}
        = (Ok (filter (is_channel p) (pg_elements p sel)),
           {| world := p; trace := (t ++ evs)%list |})
        /\ queried evs = (pre ++ [sel])%list)
  /\ (forall W (drv : Driver W) s,
         exists evs k,
           trace (snd (get_live_streamer_cards drv s)) = (trace s ++ evs)%list
           /\ queried evs = firstn k selectors_to_try)
  /\ (forall W (drv : Driver W) query s e w',
         respond drv (UntilVisibility 5000 SEARCH_INPUT) (world s) = (Ok e, w') ->
         exists evs,
           trace (snd (enter_search_query drv query s)) = (trace s ++ evs)%list
           /\ forallb (avoids SEARCH_INPUT_ALT) evs = true).
Proof.
  split; [|split].
  - intros p t pre sel post Hf E Hpre Hsel.
    unfold get_live_streamer_cards, try_except; rewrite E.
    destruct (@page_loop_hit p Hf pre sel post Hpre Hsel [] t) as (evs & -> & Q).
    exists evs; auto.
  - intros; apply get_live_streamer_cards_in_order.
  - intros; eapply enter_search_query_first_visible; eauto.
Qed.

Lemma first_strategy_with_a_channel_link_wins_witness :
  exists evs,
    get_live_streamer_cards page_driver {| world := results_page; trace := [] |}
    = (Ok (filter (is_channel results_page) (pg_elements results_page STREAMER_CARDS)),
       {| world := results_page; trace := ([] ++ evs)%list |})
    /\ queried evs = ([LIVE_CHANNELS] ++ [STREAMER_CARDS])%list.
Proof.
  apply (proj1 first_strategy_with_a_channel_link_wins results_page []
           [LIVE_CHANNELS] STREAMER_CARDS
           [SEARCH_RESULT_LINKS; (XPATH, "//a[contains(@href, '/') and .//h3]");
            (CSS_SELECTOR, "a[href^='/']")]).
  - intros c; reflexivity.
  - reflexivity.
  - intros l [<-|[]]; reflexivity.
  - discriminate.
Defined.

(** C3, as the claim words it, fails.  The first strategy matches two
    elements, yet the result is not its match set, and the second strategy
    is asked after it: the two elements are navigation links, and the
    channel is in the match set of the second strategy. *)
Lemma nonempty_match_set_does_not_end_resolution :
  pg_elements results_page LIVE_CHANNELS = [4; 5]
  /\ fst (get_live_streamer_cards page_driver (start results_page)) = Ok [2]
  /\ queried (trace (snd (get_live_streamer_cards page_driver (start results_page))))
     = [LIVE_CHANNELS; STREAMER_CARDS].
Proof.
  repeat split; reflexivity.
Qed.

(** ** Clicks *)

Lemma native_clicks_app evs1 evs2 :
  native_clicks (evs1 ++ evs2) = (native_clicks evs1 ++ native_clicks evs2)%list.
Proof.
  induction evs1 as [|ev evs1 IH]; cbn; [reflexivity|].
  destruct (ev_call ev); cbn; now rewrite ?IH.
Qed.

Lemma script_clicks_app evs1 evs2 :
  script_clicks (evs1 ++ evs2) = (script_clicks evs1 ++ script_clicks evs2)%list.
Proof.
  induction evs1 as [|ev evs1 IH]; cbn; [reflexivity|].
  destruct (ev_call ev) as [| | |[]| | | | | | | | | | | | | | | | | | |];
    cbn; now rewrite ?IH.
Qed.

Lemma no_click_clicks evs :
  forallb no_click evs = true -> native_clicks evs = [] /\ script_clicks evs = [].
Proof.
  induction evs as [|ev evs IH]; cbn; [auto|].
  unfold no_click at 1.
  destruct (ev_call ev) as [| | |[]| | | | | | | | | | | | | | | | | | |]; cbn;
    try discriminate; exact IH.
Qed.

(** Case analysis on the answer to the next request. *)
Ltac answer drv :=
  match goal with
  | |- context [respond drv ?c ?w] =>
      let r := fresh "r" in
      let x := fresh "x" in
      let w' := fresh "w" in
      destruct (respond drv c w) as [[r|x] w']; [|try destruct x]; cbn
  end.

(** Case analysis on the outcome of a computation [m] of which only [Hm],
    what it adds to the trace, is known. *)
Ltac blackbox m Hm :=
  match goal with
  | |- context [m ?s] =>
      let evs := fresh "evs" in
      let T := fresh "T" in
      let F := fresh "F" in
      let x := fresh "x" in
      destruct (Hm s) as (evs & T & F);
      destruct (m s) as [[?|x] ?]; cbn [snd trace] in T; cbn
  end.

Ltac close_clicks :=
  repeat match goal with
         | H : forallb no_click _ = true |- _ =>
             apply no_click_clicks in H; destruct H as [? ?]
         end;
  repeat match goal with
         | H : trace _ = _ |- _ => rewrite H; clear H
         end;
  eexists; split; [repeat rewrite <- app_assoc; reflexivity|];
  rewrite ?native_clicks_app, ?script_clicks_app;
  repeat match goal with
         | H : native_clicks _ = [] |- _ => rewrite H; clear H
         | H : script_clicks _ = [] |- _ => rewrite H; clear H
         end;
  cbn; repeat split; auto; try discriminate.

Section Clicks.

Context {W : Type} (drv : Driver W).

Lemma adds_filter_channel_links cards :
  adds no_click (filter_channel_links drv cards).
Proof.
  induction cards as [|card rest IH]; cbn [filter_channel_links];
    unfold _is_channel_link; adds_tac; exact IH.
Qed.

Lemma adds_streamer_cards_loop selectors :
  forall cards, adds no_click (streamer_cards_loop drv selectors cards).
Proof.
  induction selectors as [|sel rest IH]; intros cards; cbn [streamer_cards_loop];
    unfold find_elements; adds_tac; auto using adds_filter_channel_links.
Qed.

Lemma adds_get_live_streamer_cards :
  adds no_click (get_live_streamer_cards drv).
Proof.
  unfold get_live_streamer_cards; adds_tac; apply adds_streamer_cards_loop.
Qed.

Lemma click_search_icon_script_only :
  script_click_only (click_search_icon drv).
Proof.
  intros s.
  unfold click_search_icon, is_element_present, find_element, try_except, bind,
    request, on_no_such_element, on_timeout, ret, raise.
  repeat answer drv; close_clicks.
Qed.

Lemma click_first_live_streamer_script_only :
  script_click_only (click_first_live_streamer drv).
Proof.
  intros s.
  unfold click_first_live_streamer.
  pose proof adds_get_live_streamer_cards as Hg.
  generalize dependent (get_live_streamer_cards drv); intros cards_of Hg.
  match goal with
  | |- context [WebDriverWait_until drv 5000 ?m] =>
      assert (Hw : adds no_click (WebDriverWait_until drv 5000 m)) by adds_tac;
      generalize dependent (WebDriverWait_until drv 5000 m); intros wait Hw
  end.
  unfold take_screenshot, try_except, bind, request, ret, raise.
  blackbox cards_of Hg.
  - match goal with
    | |- context [match ?l with [] => _ | _ :: _ => _ end] =>
        destruct l as [|first_card rest]; cbn
    end.
    + repeat answer drv; close_clicks.
    + repeat answer drv;
        try match goal with
            | |- context [if String.eqb ?t EmptyString then _ else _] =>
                destruct (String.eqb t EmptyString); cbn
            end;
        repeat answer drv; try blackbox wait Hw; repeat answer drv; close_clicks.
  - repeat answer drv; close_clicks.
Qed.

(** C5, as amended.  [click_search_icon] and [click_first_live_streamer]
    request no native click at all: whatever the session answers, the click
    on the resolved target is a script click, requested at most once, and
    exactly once whenever the operation returns normally. *)
Theorem clicks_go_through_the_script :
  script_click_only (click_search_icon drv)
  /\ script_click_only (click_first_live_streamer drv).
Proof.
  split; [apply click_search_icon_script_only
         | apply click_first_live_streamer_script_only].
Qed.

End Clicks.

(** C5, as the claim words it, fails.  The search icon and the first card
    are in place and clickable, so that a native click would not be
    intercepted; both operations succeed, with one script click each and no
    native click requested before it. *)
Lemma script_click_without_native_attempt :
  pg_clickable clickable_page SEARCH_ICON = true
  /\ fst (click_search_icon page_driver (start clickable_page)) = Ok tt
  /\ native_clicks (trace (snd (click_search_icon page_driver (start clickable_page)))) = []
  /\ script_clicks (trace (snd (click_search_icon page_driver (start clickable_page)))) = [7]
  /\ fst (click_first_live_streamer page_driver (start clickable_page)) = Ok tt
  /\ native_clicks
       (trace (snd (click_first_live_streamer page_driver (start clickable_page)))) = []
  /\ script_clicks
       (trace (snd (click_first_live_streamer page_driver (start clickable_page)))) = [2].
Proof.
  repeat split; reflexivity.
Qed.

Lemma clicks_go_through_the_script_witness :
  exists evs : list event,
    trace (snd (click_search_icon page_driver (start clickable_page)))
    = (trace (start clickable_page) ++ evs)%list
    /\ native_clicks evs = []
    /\ List.length (script_clicks evs) <= 1
    /\ (is_ok (fst (click_search_icon page_driver (start clickable_page))) = true ->
        List.length (script_clicks evs) = 1).
Proof.
  exact (proj1 (clicks_go_through_the_script page_driver) (start clickable_page)).
Defined.

(** ** Modals *)

Section Modals.

Context {W : Type} (drv : Driver W).

(** A [try] whose handler takes every exception and returns a value does
    not raise, and its handler sends no request. *)
Lemma catch_all_ok A (body : M W A) (a : A) s :
  (exists b, fst (try_except body (fun _ => ret a) s) = Ok b)
  /\ snd (try_except body (fun _ => ret a) s) = snd (body s).
Proof.
  unfold try_except; destruct (body s) as [[b|e] s']; cbn; eauto.
Qed.

(** The loop over the close buttons asks for them in their order and ends
    with the first click that succeeds. *)
Lemma close_modals_loop_stops selectors :
  forall s, exists evs,
    trace (snd (close_modals_loop drv selectors s)) = (trace s ++ evs)%list
    /\ stops_at_first_close evs = true
    /\ exists k, attempted evs = firstn k selectors.
Proof.
  induction selectors as [|sel rest IH]; intros s; cbn [close_modals_loop].
  - exists []; cbn; rewrite app_nil_r; repeat split; auto. now exists 0.
  - unfold close_modal_if_present, try_except, bind, request, on_timeout, ret.
    repeat answer drv;
      try match goal with
          | |- context [close_modals_loop drv rest ?s'] =>
              destruct (IH s') as (evs & T & St & k & At); cbn [trace] in T;
              rewrite T; eexists; split; [repeat rewrite <- app_assoc; reflexivity|];
              cbn; split; [exact St | exists (S k); cbn; now rewrite At]
          end.
    eexists; split; [repeat rewrite <- app_assoc; reflexivity|].
    cbn; split; [reflexivity | now exists 1].
Qed.

(** The loop over the close buttons is a run of [close_run]. *)
Lemma close_modals_loop_run selectors :
  forall s, exists evs,
    trace (snd (close_modals_loop drv selectors s)) = (trace s ++ evs)%list
    /\ close_run drv selectors (world s) evs.
Proof.
  induction selectors as [|sel rest IH]; intros s; cbn [close_modals_loop].
  - exists []; cbn; rewrite app_nil_r; split; [reflexivity | constructor].
  - unfold close_modal_if_present, try_except, bind, request, on_timeout, ret.
    destruct (respond drv (UntilClickable 500 sel) (world s)) as [[b|x] w1] eqn:E1; cbn.
    + destruct (respond drv (ElementClick b) w1) as [[[]|x] w2] eqn:E2; cbn.
      * eexists; split; [rewrite <- app_assoc; reflexivity|].
        eapply close_run_closed; eauto.
      * destruct x; cbn;
          match goal with
          | |- context [close_modals_loop drv rest ?s'] =>
              destruct (IH s') as (evs & T & R); cbn [trace world] in T, R;
              rewrite T; eexists; split; [repeat rewrite <- app_assoc; reflexivity|];
              eapply close_run_failed; eauto
          end.
    + destruct x; cbn;
        match goal with
        | |- context [close_modals_loop drv rest ?s'] =>
            destruct (IH s') as (evs & T & R); cbn [trace world] in T, R;
            rewrite T; eexists; split; [repeat rewrite <- app_assoc; reflexivity|];
            eapply close_run_absent; eauto
        end.
Qed.

Lemma handle_mature_content_ok s :
  exists s1 evs1,
    handle_mature_content drv s = (Ok tt, s1)
    /\ trace s1 = (trace s ++ evs1)%list.
Proof.
  assert (A : adds (fun _ => true) (handle_mature_content drv))
    by (unfold handle_mature_content, is_element_visible, click; adds_tac).
  destruct (A s) as (evs1 & T & _).
  destruct (catch_all_ok
              (visible <- is_element_visible drv MATURE_CONTENT_BUTTON 1000 ;;
               if visible then click drv MATURE_CONTENT_BUTTON else ret tt) tt s)
    as ((u & Hu) & _).
  fold (handle_mature_content drv) in Hu.
  destruct (handle_mature_content drv s) as [r1 s1]; cbn in Hu, T; subst r1.
  destruct u; eauto.
Qed.

(** C6, as amended.  [handle_modals] never raises and returns no value,
    [None], whether a modal was dismissed or not.  After the step for the
    mature-content warning, whatever its outcome, it goes through the close
    buttons in their listed order, from the state that step left: it waits
    for each one and clicks the element the wait returned, goes on to the
    next after a wait or a click that raised, and stops at the first click
    that succeeds, so that no later pattern is attempted.
    [close_modal_if_present] returns [True] when it clicked the button and
    [False] when its wait timed out. *)
Theorem handle_modals_outcome s :
  fst (handle_modals drv s) = Ok None
  /\ (exists evs1 evs2,
         trace (snd (handle_mature_content drv s)) = (trace s ++ evs1)%list
         /\ trace (snd (handle_modals drv s)) = (trace s ++ evs1 ++ evs2)%list
         /\ close_run drv close_selectors (world (snd (handle_mature_content drv s))) evs2
         /\ stops_at_first_close evs2 = true
         /\ exists k, attempted evs2 = firstn k close_selectors)
  /\ (forall l timeout b w1 w2,
         respond drv (UntilClickable timeout l) (world s) = (Ok b, w1) ->
         respond drv (ElementClick b) w1 = (Ok tt, w2) ->
         fst (close_modal_if_present drv l timeout s) = Ok true)
  /\ (forall l timeout w1,
         respond drv (UntilClickable timeout l) (world s) = (Raise TimeoutException, w1) ->
         fst (close_modal_if_present drv l timeout s) = Ok false).
Proof.
  destruct (handle_mature_content_ok s) as (s1 & evs1 & E1 & T1).
  destruct (catch_all_ok (close_modals_loop drv close_selectors) tt s1)
    as ((u & Hu) & Hs).
  destruct (close_modals_loop_stops close_selectors s1) as (evs2 & T2 & St & Hk).
  destruct (close_modals_loop_run close_selectors s1) as (evs2' & T2' & Hrun).
  assert (evs2' = evs2) by (rewrite T2 in T2'; now apply app_inv_head in T2').
  subst evs2'.
  assert (E : handle_modals drv s
              = (Ok None, snd (close_modals_loop drv close_selectors s1))).
  { unfold handle_modals, bind; rewrite E1.
    destruct (try_except (close_modals_loop drv close_selectors) (fun _ => ret tt) s1)
      as [r2 s2]; cbn in Hu, Hs; subst r2 s2; reflexivity. }
  split; [|split; [|split]].
  - now rewrite E.
  - exists evs1, evs2; rewrite E, E1; cbn [snd].
    rewrite T2, T1, app_assoc; auto.
  - intros l timeout b w1 w2 H1 H2.
    unfold close_modal_if_present, try_except, bind, request.
    rewrite H1; cbn; rewrite H2; reflexivity.
  - intros l timeout w1 H1.
    unfold close_modal_if_present, try_except, bind, request.
    rewrite H1; reflexivity.
Qed.

End Modals.

Lemma handle_modals_outcome_witness :
  fst (close_modal_if_present page_driver CLOSE_BUTTON 500 (start modal_page)) = Ok true.
Proof.
  apply (proj1 (proj2 (proj2 (handle_modals_outcome page_driver (start modal_page))))
           CLOSE_BUTTON 500%Z 12 modal_page modal_page);
    reflexivity.
Defined.

(** C6, as the claim words it, fails.  Both overlays are up: the operation
    dismisses the first pattern, the mature-content warning, with success,
    goes on to the next pattern and clicks the close button as well, and
    what it returns is [None], not [True]. *)
Lemma handle_modals_goes_on_and_returns_none :
  fst (handle_modals page_driver (start modal_page)) = Ok None
  /\ trace (snd (handle_modals page_driver (start modal_page)))
     = [ {| ev_call := UntilVisibility 1000 MATURE_CONTENT_BUTTON; ev_raised := None |};
         {| ev_call := UntilClickable 5000 MATURE_CONTENT_BUTTON; ev_raised := None |};
         {| ev_call := ElementClick 11; ev_raised := None |};
         {| ev_call := UntilClickable 500 CLOSE_BUTTON; ev_raised := None |};
         {| ev_call := ElementClick 12; ev_raised := None |} ].
Proof.
  split; reflexivity.
Qed.

(** ** The scroll *)

Lemma scroll_first_some test pixels els hit els' :
  scroll_first test pixels els = Some (hit, els') ->
  exists pre el post,
    els = (pre ++ el :: post)%list
    /\ none_passes test pre = true
    /\ test el = true
    /\ hit = scroll_node pixels el
    /\ els' = (pre ++ hit :: post)%list.
Proof.
  revert hit els'; induction els as [|el rest IH]; intros hit els'; cbn; [discriminate|].
  destruct (test el) eqn:Et.
  - intros H; injection H as <- <-.
    exists [], el, rest; repeat split; auto.
  - destruct (scroll_first test pixels rest) as [[h r]|]; [|discriminate].
    intros H; injection H as <- <-.
    destruct (IH h r eq_refl) as (pre & e & post & -> & Hn & He & -> & ->).
    exists (el :: pre), e, post; repeat split; auto.
    unfold none_passes; cbn; rewrite Et; exact Hn.
Qed.

Lemma scroll_first_none test pixels els :
  scroll_first test pixels els = None <-> none_passes test els = true.
Proof.
  unfold none_passes; induction els as [|el rest IH]; cbn; [tauto|].
  destruct (test el); cbn; [split; discriminate|].
  destruct (scroll_first test pixels rest) as [[h r]|]; [|tauto].
  split; [discriminate|]. intros H; apply IH in H; discriminate.
Qed.

Lemma scroll_by_selectors_some selectors pixels els c hit els' :
  scroll_by_selectors selectors pixels els = Some (c, hit, els') ->
  In c selectors
  /\ scroll_first (scrollable_match c) pixels els = Some (hit, els').
Proof.
  induction selectors as [|c0 rest IH]; cbn; [discriminate|].
  fold (scrollable_match c0).
  destruct (scroll_first (scrollable_match c0) pixels els) as [[h r]|] eqn:E.
  - intros H; injection H as <- <- <-; auto.
  - intros H; destruct (IH H); auto.
Qed.

Lemma scroll_by_selectors_none selectors pixels els :
  scroll_by_selectors selectors pixels els = None <->
  forall c, In c selectors -> none_passes (scrollable_match c) els = true.
Proof.
  induction selectors as [|c0 rest IH]; cbn; [split; [intros _ c [] | auto]|].
  fold (scrollable_match c0).
  destruct (scroll_first (scrollable_match c0) pixels els) as [[h r]|] eqn:E.
  - split; [discriminate|].
    intros H.
    specialize (H c0 (or_introl eq_refl)).
    apply (scroll_first_none _ pixels) in H; congruence.
  - apply scroll_first_none in E.
    rewrite IH; split.
    + intros H c [<-|Hc]; auto.
    + intros H c Hc; apply H; auto.
Qed.

Lemma none_passes_weaken (test test' : node -> bool) els :
  (forall el, test' el = true -> test el = true) ->
  none_passes test els = true -> none_passes test' els = true.
Proof.
  unfold none_passes; intros Hi; induction els as [|el rest IH]; cbn; [auto|].
  intros H; apply andb_prop in H; destruct H as [H1 H2].
  rewrite IH by exact H2.
  destruct (test' el) eqn:E; [|reflexivity].
  apply Hi in E; rewrite E in H1; discriminate.
Qed.

(** The selector that [scroll_by_selectors] reports is the first of the
    list that matches a scrollable element. *)
Lemma scroll_by_selectors_first selectors pixels els c hit els' :
  scroll_by_selectors selectors pixels els = Some (c, hit, els') ->
  exists before after,
    selectors = (before ++ c :: after)%list
    /\ forall c', In c' before -> none_passes (scrollable_match c') els = true.
Proof.
  induction selectors as [|c0 rest IH]; cbn; [discriminate|].
  fold (scrollable_match c0).
  destruct (scroll_first (scrollable_match c0) pixels els) as [[h r]|] eqn:E.
  - intros H; injection H as <- <- <-.
    exists [], rest; split; [reflexivity | intros c' []].
  - intros H; destruct (IH H) as (before & after & -> & Hb).
    exists (c0 :: before), after; split; [reflexivity|].
    intros c' [<-|Hc]; [now apply scroll_first_none in E | auto].
Qed.

Lemma scroll_script_spec pixels d :
  exists r d',
    scroll_script pixels d = (r, d')
    /\ js_scrolled r = true
    /\ ((exists pre el post,
            nodes d = (pre ++ el :: post)%list
            /\ isScrollable el = true
            /\ nodes d' = (pre ++ scroll_node pixels el :: post)%list
            /\ js_scrollTop r = node_scrollTop (scroll_node pixels el)
            /\ ((exists before c after,
                    scroll_selectors = (before ++ c :: after)%list
                    /\ (forall c', In c' before ->
                                   none_passes (scrollable_match c') (nodes d) = true)
                    /\ js_selector r = BySelector c
                    /\ matches el c = true
                    /\ none_passes (scrollable_match c) pre = true)
                \/ ((forall c, In c scroll_selectors ->
                               none_passes (scrollable_match c) (nodes d) = true)
                    /\ js_selector r = ByTag (tagName el)
                    /\ scrollable_by_100 el = true
                    /\ none_passes scrollable_by_100 pre = true)))
        \/ (js_selector r = Window
            /\ d' = scroll_window pixels d
            /\ none_passes scrollable_by_100 (nodes d) = true
            /\ forall c, In c scroll_selectors ->
                         none_passes (scrollable_match c) (nodes d) = true))
    /\ (none_passes isScrollable (nodes d) = true -> js_selector r = Window).
Proof.
  unfold scroll_script.
  destruct (scroll_by_selectors scroll_selectors pixels (nodes d))
    as [[[c hit] els']|] eqn:E1.
  - destruct (scroll_by_selectors_first _ _ _ E1) as (before & after & Hsel & Hbefore).
    apply scroll_by_selectors_some in E1; destruct E1 as (Hc & E1).
    pose proof E1 as E1'.
    apply scroll_first_some in E1; destruct E1 as (pre & el & post & Hn & Hp & Ht & -> & ->).
    unfold scrollable_match in Ht; apply andb_prop in Ht; destruct Ht as [Hm Hs].
    do 2 eexists; split; [reflexivity|]; cbn; repeat split.
    + left; exists pre, el, post; repeat split; auto.
      left; exists before, c, after; auto.
    + intros Hnone; exfalso.
      assert (N : none_passes (scrollable_match c) (nodes d) = true).
      { refine (@none_passes_weaken isScrollable (scrollable_match c) (nodes d) _ Hnone).
        unfold scrollable_match; intros x Hx; apply andb_prop in Hx; tauto. }
      apply (scroll_first_none _ pixels) in N; congruence.
  - pose proof (proj1 (scroll_by_selectors_none scroll_selectors pixels (nodes d)) E1)
      as Hnosel.
    destruct (scroll_first scrollable_by_100 pixels (nodes d)) as [[hit els']|] eqn:E2.
    + pose proof E2 as E2'.
      apply scroll_first_some in E2; destruct E2 as (pre & el & post & Hn & Hp & Ht & -> & ->).
      pose proof Ht as Ht'.
      unfold scrollable_by_100 in Ht; apply andb_prop in Ht; destruct Ht as [Hs _].
      do 2 eexists; split; [reflexivity|]; cbn; repeat split.
      * left; exists pre, el, post; repeat split; auto.
      * intros Hnone; exfalso.
        assert (N : none_passes scrollable_by_100 (nodes d) = true).
        { refine (@none_passes_weaken isScrollable scrollable_by_100 (nodes d) _ Hnone).
          unfold scrollable_by_100; intros x Hx; apply andb_prop in Hx; tauto. }
        apply (scroll_first_none _ pixels) in N; congruence.
    + do 2 eexists; split; [reflexivity|]; cbn; repeat split.
      right; repeat split.
      * now apply scroll_first_none in E2.
      * exact Hnosel.
Qed.

Section Scroll.
Context {W : Type} (drv : Driver W).

Lemma scroll_by_pixels_run pixels s :
  fst (scroll_by_pixels drv pixels s)
  = match fst (respond drv (DriverExecuteScript (JsScrollBy pixels)) (world s)) with
    | Ok _ => Ok tt
    | Raise e => Raise e
    end.
Proof.
  unfold scroll_by_pixels, try_except, bind, request.
  destruct (respond drv (DriverExecuteScript (JsScrollBy pixels)) (world s)) as [[r|e] w'];
    reflexivity.
Qed.
End Scroll.

Lemma page_scroll_by_pixels p t pixels :
  pg_fault p (DriverExecuteScript (JsScrollBy pixels)) = None ->
  fst (scroll_by_pixels page_driver pixels {| world := p; trace := t |}) = Ok tt
  /\ pg_document (world (snd (scroll_by_pixels page_driver pixels {| world := p; trace := t |})))
     = snd (scroll_script pixels (pg_document p)).
Proof.
  intros Hf; unfold scroll_by_pixels, try_except, bind.
  rewrite page_request by exact Hf.
  cbn. destruct (scroll_script pixels (pg_document p)); cbn; auto.
Qed.

(** C7, as amended.  [scroll_by_pixels] fails exactly when the session
    fails to run the script: the exception of [execute_script] is logged and
    raised again.  On a session that runs it, the operation returns
    normally and the page is as the script leaves it.  The script itself
    always reports a scroll.  When a listed selector matches a scrollable
    element, it scrolls, for the first such selector of the list, the first
    scrollable element in document order that matches it.  When none does,
    it scrolls the first element in document order that is scrollable with
    more than 100 pixels out of view; and when there is no such element
    either, the window, which is the case whenever no element is
    scrollable. *)
Theorem scroll_by_pixels_outcome :
  (forall W (drv : Driver W) pixels s,
      fst (scroll_by_pixels drv pixels s)
      = match fst (respond drv (DriverExecuteScript (JsScrollBy pixels)) (world s)) with
        | Ok _ => Ok tt
        | Raise e => Raise e
        end)
  /\ (forall p t pixels,
         pg_fault p (DriverExecuteScript (JsScrollBy pixels)) = None ->
         fst (scroll_by_pixels page_driver pixels {| world := p; trace := t |}) = Ok tt
         /\ pg_document
              (world (snd (scroll_by_pixels page_driver pixels {| world := p; trace := t |})))
            = snd (scroll_script pixels (pg_document p)))
  /\ (forall pixels d,
         exists r d',
           scroll_script pixels d = (r, d')
           /\ js_scrolled r = true
           /\ ((exists pre el post,
                   nodes d = (pre ++ el :: post)%list
                   /\ isScrollable el = true
                   /\ nodes d' = (pre ++ scroll_node pixels el :: post)%list
                   /\ js_scrollTop r = node_scrollTop (scroll_node pixels el)
                   /\ ((exists before c after,
                           scroll_selectors = (before ++ c :: after)%list
                           /\ (forall c', In c' before ->
                                          none_passes (scrollable_match c') (nodes d) = true)
                           /\ js_selector r = BySelector c
                           /\ matches el c = true
                           /\ none_passes (scrollable_match c) pre = true)
                       \/ ((forall c, In c scroll_selectors ->
                                      none_passes (scrollable_match c) (nodes d) = true)
                           /\ js_selector r = ByTag (tagName el)
                           /\ scrollable_by_100 el = true
                           /\ none_passes scrollable_by_100 pre = true)))
               \/ (js_selector r = Window
                   /\ d' = scroll_window pixels d
                   /\ none_passes scrollable_by_100 (nodes d) = true
                   /\ forall c, In c scroll_selectors ->
                                none_passes (scrollable_match c) (nodes d) = true))
           /\ (none_passes isScrollable (nodes d) = true -> js_selector r = Window)).
Proof.
  split; [|split].
  - intros; apply scroll_by_pixels_run.
  - intros; now apply page_scroll_by_pixels.
  - intros; apply scroll_script_spec.
Qed.

Lemma scroll_by_pixels_outcome_witness :
  fst (scroll_by_pixels page_driver 500 {| world := scrolling_page; trace := [] |}) = Ok tt
  /\ pg_document
       (world (snd (scroll_by_pixels page_driver 500
                      {| world := scrolling_page; trace := [] |})))
     = snd (scroll_script 500 (pg_document scrolling_page)).
Proof.
  apply (proj1 (proj2 scroll_by_pixels_outcome) scrolling_page [] 500%Z).
  reflexivity.
Defined.

(** On the page with the scrolling [main], that element is scrolled, by the
    500 pixels asked for. *)
Example scroll_main :
  fst (scroll_script 500 scrolling_document)
  = {| js_scrolled := true; js_selector := BySelector MainRoleMain; js_scrollTop := 500 |}.
Proof. reflexivity. Qed.

(** On the page where [body] and [#root] both scroll, the script scrolls
    [#root], the one listed first, and leaves [body] where it is. *)
Example scroll_root_before_body :
  fst (scroll_script 500 competing_document)
  = {| js_scrolled := true; js_selector := BySelector Root; js_scrollTop := 500 |}
  /\ map node_scrollTop (nodes (snd (scroll_script 500 competing_document)))
     = [0; 0; 500; 0]%Z.
Proof. split; reflexivity. Qed.

(** C7, as the claim words it, fails.  On a session that is gone the script
    cannot run, and the scroll raises the exception of the session. *)
Lemma scroll_raises_on_a_dead_session :
  fst (scroll_by_pixels page_driver 500 (start dead_session))
  = Raise (WebDriverException "invalid session id")
  /\ fst (scroll_down page_driver 1 500 (start dead_session))
     = Raise (WebDriverException "invalid session id").
Proof.
  split; reflexivity.
Qed.

(** ** Bounded waits *)

Section Waits.

Context {W : Type} (drv : Driver W).

(** A method that is never true makes the wait time out. *)
Lemma until_loop_never_true (method : M W bool) :
  (forall s, exists s', method s = (Ok false, s')) ->
  forall n s, fst (until_loop n method s) = Raise TimeoutException.
Proof.
  intros Hm n; induction n as [|n IH]; intros s; cbn [until_loop];
    destruct (Hm s) as (s' & ->); [reflexivity | apply IH].
Qed.

(** An exception the wait does not ignore leaves it at once. *)
Lemma until_loop_raises_at_once (method : M W bool) n s e s' :
  method s = (Raise e, s') -> ignored_by_wait e = false ->
  until_loop n method s = (Raise e, s').
Proof.
  intros Hm Hi; destruct n; cbn [until_loop]; rewrite Hm, Hi; reflexivity.
Qed.

Lemma wait_for_page_load_unfold timeout s :
  wait_for_page_load drv timeout s
  = match until_loop (polls drv timeout) (document_ready drv) s with
    | (Ok _, s') => (Ok tt, s')
    | (Raise TimeoutException, s') => (Ok tt, s')
    | (Raise e, s') => (Raise e, s')
    end.
Proof.
  unfold wait_for_page_load, try_except, bind, WebDriverWait_until.
  destruct (until_loop (polls drv timeout) (document_ready drv) s) as [[b|e] s'];
    [reflexivity | destruct e; reflexivity].
Qed.

(** While the document is not complete, the wait polls once and then as
    often as the timeout allows, and times out.  [I] holds of the sessions
    the wait goes through. *)
Lemma never_complete_polls (I : W -> Prop) n :
  (forall w, I w -> exists ready w',
      respond drv (DriverExecuteScript JsReadyState) w = (Ok ready, w')
      /\ ready <> "complete" /\ I w') ->
  forall s, I (world s) ->
    fst (until_loop n (document_ready drv) s) = Raise TimeoutException
    /\ List.length (trace (snd (until_loop n (document_ready drv) s)))
       = List.length (trace s) + S n.
Proof.
  intros Hw.
  assert (Hm : forall s, I (world s) -> exists w',
             I w'
             /\ document_ready drv s
                = (Ok false, {| world := w';
                                trace := (trace s ++ [ready_event None])%list |})).
  { intros s Hs; destruct (Hw (world s) Hs) as (ready & w' & Hr & Hne & Hi).
    exists w'; split; [exact Hi|].
    unfold document_ready, bind, request; rewrite Hr; cbn.
    destruct (String.eqb_spec ready "complete"); [contradiction | reflexivity]. }
  induction n as [|n IH]; intros s Hs; cbn [until_loop];
    destruct (Hm s Hs) as (w' & Hi & ->).
  - cbn; rewrite length_app; cbn; auto.
  - destruct (IH {| world := w'; trace := (trace s ++ [ready_event None])%list |} Hi)
      as (-> & ->); cbn [trace]; rewrite length_app; cbn; split; [auto | lia].
Qed.

(** C4, as amended.  A wait of the library signals [TimeoutException] when
    its predicate never becomes true, and [wait_for_page_load] catches it:
    it never lets a [TimeoutException] out; when the document never becomes
    complete it returns normally, after one poll and as many more as the
    timeout allows.  An exception of the predicate that is neither a timeout
    nor ignored by the wait propagates at once, after the one request that
    raised it. *)
Theorem wait_for_page_load_outcome timeout s :
  (forall (method : M W bool),
      (forall s0, exists s1, method s0 = (Ok false, s1)) ->
      fst (WebDriverWait_until drv timeout method s) = Raise TimeoutException)
  /\ (forall e, fst (wait_for_page_load drv timeout s) = Raise e -> e <> TimeoutException)
  /\ (forall I : W -> Prop,
         I (world s) ->
         (forall w, I w -> exists ready w',
             respond drv (DriverExecuteScript JsReadyState) w = (Ok ready, w')
             /\ ready <> "complete" /\ I w') ->
         fst (wait_for_page_load drv timeout s) = Ok tt
         /\ List.length (trace (snd (wait_for_page_load drv timeout s)))
            = List.length (trace s) + S (polls drv timeout))
  /\ (forall e w',
         respond drv (DriverExecuteScript JsReadyState) (world s) = (Raise e, w') ->
         e <> TimeoutException ->
         ignored_by_wait e = false ->
         wait_for_page_load drv timeout s
         = (Raise e, {| world := w'; trace := (trace s ++ [ready_event (Some e)])%list |})).
Proof.
  split; [|split; [|split]].
  - intros method Hm; apply until_loop_never_true, Hm.
  - intros e; rewrite wait_for_page_load_unfold.
    destruct (until_loop (polls drv timeout) (document_ready drv) s) as [[b|x] s'];
      [discriminate|].
    destruct x; cbn; intros H; try discriminate H; injection H as <-; discriminate.
  - intros I Hs HI; rewrite wait_for_page_load_unfold.
    destruct (@never_complete_polls I (polls drv timeout) HI s Hs) as (E & L).
    destruct (until_loop (polls drv timeout) (document_ready drv) s) as [r s'].
    cbn in E; subst r; split; [reflexivity | exact L].
  - intros e w' Hr Ht Hi.
    rewrite wait_for_page_load_unfold.
    rewrite (@until_loop_raises_at_once (document_ready drv) (polls drv timeout) s e
               {| world := w'; trace := (trace s ++ [ready_event (Some e)])%list |}).
    + destruct e; try reflexivity; contradiction.
    + unfold document_ready, bind, request; rewrite Hr; reflexivity.
    + exact Hi.
Qed.

End Waits.

Lemma wait_for_page_load_outcome_witness :
  fst (wait_for_page_load page_driver 30000 (start loading_page)) = Ok tt
  /\ List.length (trace (snd (wait_for_page_load page_driver 30000 (start loading_page))))
     = List.length (trace (start loading_page)) + S (polls page_driver 30000).
Proof.
  apply (proj1 (proj2 (proj2
           (wait_for_page_load_outcome page_driver 30000 (start loading_page))))
           (fun w => w = loading_page)).
  - reflexivity.
  - intros w ->; exists "loading", loading_page; repeat split; discriminate.
Defined.

(** C4, as the claim words it, fails.  On a page whose ready state stays
    [loading], the document-ready poll asks 61 times and then returns
    normally, and so does [open]: no timeout reaches the caller. *)
Lemma page_load_timeout_is_not_signalled :
  pg_ready loading_page = "loading"
  /\ wait_for_page_load page_driver 30000 (start loading_page)
     = (Ok tt, {| world := loading_page; trace := repeat (ready_event None) 61 |})
  /\ fst (open page_driver (start loading_page)) = Ok tt.
Proof.
  repeat split; vm_compute; reflexivity.
Qed.

(** ** The checks of the destination *)

Section Checks.

Context {W : Type} (drv : Driver W).

(** C8, as amended.  The two checks of the destination never raise, and a
    failure of their own evaluation is swallowed as a success:
    [is_page_loaded_successfully] returns [True] when reading the address
    raises; [is_video_player_visible] returns [True] when the visibility
    wait raises anything but its timeout, and when, after that timeout,
    looking for the video elements raises anything but a timeout. *)
Theorem verification_assumes_success s :
  (exists b, fst (is_page_loaded_successfully drv s) = Ok b)
  /\ (exists b, fst (is_video_player_visible drv s) = Ok b)
  /\ (forall e w',
         respond drv DriverCurrentUrl (world s) = (Raise e, w') ->
         fst (is_page_loaded_successfully drv s) = Ok true)
  /\ (forall e w',
         respond drv (UntilVisibility 10000 VIDEO_PLAYER) (world s) = (Raise e, w') ->
         e <> TimeoutException ->
         fst (is_video_player_visible drv s) = Ok true)
  /\ (forall w1 e w2,
         respond drv (UntilVisibility 10000 VIDEO_PLAYER) (world s)
         = (Raise TimeoutException, w1) ->
         respond drv (UntilPresenceAll self_wait (TAG_NAME, "video")) w1 = (Raise e, w2) ->
         e <> TimeoutException ->
         fst (is_video_player_visible drv s) = Ok true).
Proof.
  repeat split.
  - unfold is_page_loaded_successfully, try_except.
    match goal with |- context [match ?m s with _ => _ end] => destruct (m s) as [[b|e] s'] end;
      cbn; eauto.
  - unfold is_video_player_visible, try_except at 1.
    match goal with |- context [match ?m s with _ => _ end] => destruct (m s) as [[b|e] s'] end;
      cbn; eauto.
  - intros e w' Hr.
    unfold is_page_loaded_successfully, try_except, bind, get_current_url, request.
    rewrite Hr; reflexivity.
  - intros e w' Hr Ht.
    unfold is_video_player_visible, is_element_visible, try_except, bind, request.
    rewrite Hr; destruct e; try reflexivity; contradiction.
  - intros w1 e w2 Hr1 Hr2 Ht.
    unfold is_video_player_visible, is_element_visible, find_elements,
      try_except, bind, request.
    rewrite Hr1; cbn; rewrite Hr2; destruct e; try reflexivity; contradiction.
Qed.

End Checks.

Lemma verification_assumes_success_witness :
  fst (is_page_loaded_successfully page_driver (start dead_session)) = Ok true.
Proof.
  apply (proj1 (proj2 (proj2 (verification_assumes_success page_driver (start dead_session))))
           (WebDriverException "invalid session id") dead_session).
  reflexivity.
Defined.

(** C8, as the claim words it, fails.  On a session that answers every
    request with an exception, both checks of the destination report a
    success. *)
Lemma checks_report_success_on_exception :
  fst (respond page_driver DriverCurrentUrl dead_session)
  = Raise (WebDriverException "invalid session id")
  /\ fst (is_page_loaded_successfully page_driver (start dead_session)) = Ok true
  /\ fst (respond page_driver (UntilVisibility 10000 VIDEO_PLAYER) dead_session)
     = Raise (WebDriverException "invalid session id")
  /\ fst (is_video_player_visible page_driver (start dead_session)) = Ok true.
Proof.
  repeat split; reflexivity.
Qed.

(** ** The session *)

Section Release.

Context {W : Type} (drv : Driver W).

(** C9.  Whatever the test does, when the request that starts the session
    is answered normally, the last request of the run is [driver.quit()]:
    after a set-up that raised, after a test that passed, and after a test
    that failed or raised.  When the session could not be started, by an
    exception of the request or for an unsupported browser, there is none
    to close: the run ends with that exception and the test is not run. *)
Theorem session_is_released c (test : M W unit) s :
  (forall call0,
      creation_request c = Some call0 ->
      is_ok (fst (respond drv call0 (world s))) = true ->
      exists pre x,
        trace (snd (run_with_driver drv c test s)) = (pre ++ [quit_event x])%list)
  /\ (forall call0 e,
         creation_request c = Some call0 ->
         raised (fst (respond drv call0 (world s))) = Some e ->
         fst (run_with_driver drv c test s) = Raise e
         /\ trace (snd (run_with_driver drv c test s))
            = (trace s ++ [{| ev_call := call0; ev_raised := Some e |}])%list)
  /\ (creation_request c = None ->
      run_with_driver drv c test s
      = (Raise (ValueError ("Unsupported browser: " ++ fixture_browser c)), s)).
Proof.
  unfold creation_request, run_with_driver, driver_setup, driver_teardown,
    fixture_try, fixture_finally, create_driver, configure_driver.
  split; [|split].
  - intros call0 Hc Hr.
    destruct (String.eqb (fixture_browser c) "chrome");
      [|destruct (String.eqb (fixture_browser c) "firefox");
        [|destruct (String.eqb (fixture_browser c) "edge"); [|discriminate]]];
      injection Hc as <-;
      unfold bind, request, ret in *;
      (destruct (respond drv _ (world s)) as [[u|e] w0] eqn:E0; [|discriminate Hr]);
      cbn;
      repeat answer drv;
      try destruct (opt_mobile c); cbn;
      repeat answer drv;
      repeat match goal with
             | |- context [test ?s'] => destruct (test s') as [out s2]; cbn
             end;
      repeat answer drv;
      eexists; eexists; reflexivity.
  - intros call0 e Hc Hr.
    destruct (String.eqb (fixture_browser c) "chrome");
      [|destruct (String.eqb (fixture_browser c) "firefox");
        [|destruct (String.eqb (fixture_browser c) "edge"); [|discriminate]]];
      injection Hc as <-;
      unfold bind, request, ret in *;
      (destruct (respond drv _ (world s)) as [[u|e'] w0] eqn:E0; [discriminate Hr|]);
      cbn in *; injection Hr as ->; auto.
  - intros Hc.
    destruct (String.eqb (fixture_browser c) "chrome"); [discriminate|].
    destruct (String.eqb (fixture_browser c) "firefox"); [discriminate|].
    destruct (String.eqb (fixture_browser c) "edge"); [discriminate|].
    reflexivity.
Qed.

End Release.

Lemma session_is_released_witness :
  exists pre x,
    trace (snd (run_with_driver page_driver default_config failing_test (start blank_page)))
    = (pre ++ [quit_event x])%list.
Proof.
  apply (proj1 (session_is_released page_driver default_config failing_test
                  (start blank_page))
           (WebdriverChrome false false));
    reflexivity.
Defined.

(** The fixture around a test that fails: the session is started,
    configured, and closed. *)
Example failing_run :
  run_with_driver page_driver default_config failing_test (start blank_page)
  = (Raise (AssertionError "Search results should be displayed for valid query"),
     {| world := blank_page;
        trace := [ {| ev_call := WebdriverChrome false false; ev_raised := None |};
                   {| ev_call := ImplicitlyWait 1; ev_raised := None |};
                   {| ev_call := SetPageLoadTimeout 8; ev_raised := None |};
                   {| ev_call := SetScriptTimeout 5; ev_raised := None |};
                   {| ev_call := MaximizeWindow; ev_raised := None |};
                   quit_event None ] |}).
Proof. reflexivity. Qed.

(** * More of the code *)

(** ** Which container the scroll script scrolls *)

Lemma scroll_by_selectors_hit pre c post pixels els :
  (forall c', In c' pre -> none_passes (scrollable_match c') els = true) ->
  none_passes (scrollable_match c) els = false ->
  exists hit els',
    scroll_by_selectors (pre ++ c :: post) pixels els = Some (c, hit, els').
Proof.
  intros Hpre Hc; induction pre as [|c0 pre IH]; cbn.
  - fold (scrollable_match c).
    destruct (scroll_first (scrollable_match c) pixels els) as [[h r]|] eqn:E; [eauto|].
    apply scroll_first_none in E; congruence.
  - fold (scrollable_match c0).
    assert (E : scroll_first (scrollable_match c0) pixels els = None).
    { apply scroll_first_none, Hpre; now left. }
    rewrite E; apply IH; intros c' H; apply Hpre; now right.
Qed.

(** X1.  The scroll script of [scroll_by_pixels] takes its selectors in the
    listed order: the selector it reports is the first one of the list that
    matches a scrollable element, whatever the later selectors match and
    wherever the elements stand in the document. *)
Theorem scroll_selector_priority pixels d pre c post :
  scroll_selectors = (pre ++ c :: post)%list ->
  (forall c', In c' pre -> none_passes (scrollable_match c') (nodes d) = true) ->
  none_passes (scrollable_match c) (nodes d) = false ->
  js_selector (fst (scroll_script pixels d)) = BySelector c.
Proof.
  intros E Hpre Hc; unfold scroll_script; rewrite E.
  destruct (scroll_by_selectors_hit pre c post pixels (nodes d) Hpre Hc)
    as (hit & els' & ->); reflexivity.
Qed.

Lemma scroll_selector_priority_witness :
  js_selector (fst (scroll_script 300 competing_document)) = BySelector Root.
Proof.
  apply (@scroll_selector_priority 300 competing_document [MainRoleMain; DivPageLoaded]
           Root [Body; Html]).
  - reflexivity.
  - intros c' [<-|[<-|[]]]; reflexivity.
  - reflexivity.
Defined.

(** X2.  The script falls back to scrolling the window exactly when no
    listed selector matches a scrollable element and no element of the
    document is scrollable with more than 100 pixels of overflow. *)
Theorem window_scrolled_iff pixels d :
  js_selector (fst (scroll_script pixels d)) = Window
  <-> ((forall c, In c scroll_selectors ->
                  none_passes (scrollable_match c) (nodes d) = true)
       /\ none_passes scrollable_by_100 (nodes d) = true).
Proof.
  unfold scroll_script.
  destruct (scroll_by_selectors scroll_selectors pixels (nodes d))
    as [[[c hit] els']|] eqn:E1.
  - split; [discriminate|]. intros [H _].
    pose proof (proj2 (scroll_by_selectors_none scroll_selectors pixels (nodes d)) H).
    congruence.
  - destruct (scroll_first scrollable_by_100 pixels (nodes d)) as [[hit els']|] eqn:E2.
    + split; [discriminate|]. intros [_ H].
      apply (proj2 (scroll_first_none scrollable_by_100 pixels (nodes d))) in H.
      congruence.
    + split; [|reflexivity]. intros _; split.
      * exact (proj1 (scroll_by_selectors_none scroll_selectors pixels (nodes d)) E1).
      * now apply scroll_first_none in E2.
Qed.

(** ** Scrolling several times *)

Section ScrollDown.

Context {W : Type} (drv : Driver W).

Lemma scroll_by_pixels_step pixels s :
  exists w',
    (scroll_by_pixels drv pixels s
     = (Ok tt, {| world := w'; trace := (trace s ++ [scroll_event pixels None])%list |}))
    \/ exists e,
        scroll_by_pixels drv pixels s
        = (Raise e, {| world := w';
                       trace := (trace s ++ [scroll_event pixels (Some e)])%list |}).
Proof.
  unfold scroll_by_pixels, try_except, bind, request, ret, raise.
  destruct (respond drv (DriverExecuteScript (JsScrollBy pixels)) (world s))
    as [[r|e] w']; exists w'; [left|right; exists e]; reflexivity.
Qed.

Lemma scroll_down_rounds_add a b pixels s :
  scroll_down_rounds drv (a + b) pixels s
  = (scroll_down_rounds drv a pixels ;; scroll_down_rounds drv b pixels) s.
Proof.
  revert s; induction a as [|a IH]; intros s; cbn [Nat.add scroll_down_rounds].
  - reflexivity.
  - unfold bind in *.
    destruct (scroll_by_pixels drv pixels s) as [[u|e] s1]; [|reflexivity].
    apply IH.
Qed.

Lemma scroll_down_rounds_requests rounds pixels :
  forall s, exists evs,
    trace (snd (scroll_down_rounds drv rounds pixels s)) = (trace s ++ evs)%list
    /\ List.length evs <= rounds
    /\ (forall ev, In ev evs -> ev_call ev = DriverExecuteScript (JsScrollBy pixels))
    /\ (fst (scroll_down_rounds drv rounds pixels s) = Ok tt ->
        evs = repeat (scroll_event pixels None) rounds)
    /\ (forall e, fst (scroll_down_rounds drv rounds pixels s) = Raise e ->
        exists n, n < rounds
                  /\ evs = (repeat (scroll_event pixels None) n
                            ++ [scroll_event pixels (Some e)])%list).
Proof.
  induction rounds as [|rounds IH]; intros s; cbn [scroll_down_rounds].
  - exists []; cbn; rewrite app_nil_r; repeat split; auto.
    + intros ev [].
    + discriminate.
  - unfold bind.
    destruct (scroll_by_pixels_step pixels s) as (w' & [E | (e & E)]); rewrite E.
    + destruct (IH {| world := w';
                      trace := (trace s ++ [scroll_event pixels None])%list |})
        as (evs & T & L & C & Hok & Herr).
      cbn [trace] in T.
      exists (scroll_event pixels None :: evs); repeat split.
      * rewrite T, <- app_assoc; reflexivity.
      * cbn; lia.
      * intros ev [<-|H]; auto.
      * intros H; cbn; f_equal; auto.
      * intros e H; destruct (Herr e H) as (n & Hn & ->).
        exists (S n); split; [lia | reflexivity].
    + exists [scroll_event pixels (Some e)]; cbn; repeat split.
      * lia.
      * intros ev [<-|[]]; reflexivity.
      * discriminate.
      * intros e' H; injection H as <-; exists 0; split; [lia | reflexivity].
Qed.

(** X3.  For counts that are not negative, scrolling [a + b] times is
    scrolling [a] times and then [b] times, exceptions included: the second
    batch is not started when the first one raised. *)
Theorem scroll_down_add a b pixels s :
  (0 <= a)%Z -> (0 <= b)%Z ->
  scroll_down drv (a + b) pixels s
  = (scroll_down drv a pixels ;; scroll_down drv b pixels) s.
Proof.
  intros Ha Hb; unfold scroll_down.
  rewrite Z2Nat.inj_add by assumption.
  apply scroll_down_rounds_add.
Qed.

(** X4.  [scroll_down] sends nothing but the scroll script, as many times
    as [range(times)] has rounds at most: [times] of them, and none when
    [times] is zero or negative, in which case it returns with nothing sent.
    When it returns, the script ran in every round and was answered
    normally each time; when it raises, the exception is the one of the
    first run that failed, and no run follows that one. *)
Theorem scroll_down_requests times pixels :
  forall s, exists evs,
    trace (snd (scroll_down drv times pixels s)) = (trace s ++ evs)%list
    /\ List.length evs <= Z.to_nat times
    /\ (forall ev, In ev evs -> ev_call ev = DriverExecuteScript (JsScrollBy pixels))
    /\ (fst (scroll_down drv times pixels s) = Ok tt ->
        evs = repeat (scroll_event pixels None) (Z.to_nat times))
    /\ (forall e, fst (scroll_down drv times pixels s) = Raise e ->
        exists n, n < Z.to_nat times
                  /\ evs = (repeat (scroll_event pixels None) n
                            ++ [scroll_event pixels (Some e)])%list)
    /\ ((times <= 0)%Z -> evs = [] /\ fst (scroll_down drv times pixels s) = Ok tt).
Proof.
  intros s; unfold scroll_down.
  destruct (scroll_down_rounds_requests (Z.to_nat times) pixels s)
    as (evs & T & L & C & Hok & Herr).
  exists evs; repeat split; auto.
  - assert (Z.to_nat times = 0) as E by lia.
    rewrite E in L; destruct evs; [reflexivity | cbn in L; lia].
  - assert (Z.to_nat times = 0) as E by lia.
    rewrite E; reflexivity.
Qed.

End ScrollDown.

Lemma scroll_down_add_witness :
  scroll_down page_driver (1 + 2) 500 (start scrolling_page)
  = (scroll_down page_driver 1 500 ;; scroll_down page_driver 2 500) (start scrolling_page).
Proof.
  apply (@scroll_down_add _ page_driver 1 2 500 (start scrolling_page)); lia.
Defined.

(** With a negative count the two sides differ: [-1 + 2] is one round, and
    [-1] and then [2] are two. *)
Example scroll_down_negative_count :
  List.length (trace (snd (scroll_down page_driver (-1 + 2) 500 (start scrolling_page)))) = 1
  /\ List.length
       (trace (snd ((scroll_down page_driver (-1) 500 ;; scroll_down page_driver 2 500)
                      (start scrolling_page)))) = 2.
Proof. split; reflexivity. Qed.

(** ** Overlays: the cookie banner and the modals *)

Section Consent.

Context {W : Type} (drv : Driver W).

Lemma cookie_consent_loop_stops selectors :
  forall s, exists evs,
    fst (cookie_consent_loop drv selectors s) = Ok tt
    /\ trace (snd (cookie_consent_loop drv selectors s)) = (trace s ++ evs)%list
    /\ stops_at_first_close evs = true
    /\ exists k, looked_for evs = firstn k selectors.
Proof.
  induction selectors as [|sel rest IH]; intros s; cbn [cookie_consent_loop].
  - exists []; cbn; rewrite app_nil_r; repeat split; auto. now exists 0.
  - unfold is_element_visible, click, try_except, bind, request, on_timeout, ret, raise.
    repeat answer drv;
      try match goal with
          | |- context [cookie_consent_loop drv rest ?s'] =>
              destruct (IH s') as (evs & R & T & St & k & At); cbn [trace] in T;
              rewrite R, T; eexists; split; [reflexivity|];
              split; [repeat rewrite <- app_assoc; reflexivity|];
              cbn; split; [exact St | exists (S k); cbn; now rewrite At]
          end.
    eexists; split; [reflexivity|].
    split; [repeat rewrite <- app_assoc; reflexivity|].
    cbn; split; [reflexivity | now exists 1].
Qed.

(** The loop over the consent buttons is a run of [consent_run]. *)
Lemma cookie_consent_loop_run selectors :
  forall s, exists evs,
    trace (snd (cookie_consent_loop drv selectors s)) = (trace s ++ evs)%list
    /\ consent_run drv selectors (world s) evs.
Proof.
  induction selectors as [|sel rest IH]; intros s; cbn [cookie_consent_loop].
  - exists []; cbn; rewrite app_nil_r; split; [reflexivity | constructor].
  - unfold is_element_visible, click, self_wait, try_except, bind, request,
      on_timeout, ret, raise.
    destruct (respond drv (UntilVisibility 1000 sel) (world s)) as [[v|x] w1] eqn:E1; cbn.
    + destruct (respond drv (UntilClickable 5000 sel) w1) as [[b|x] w2] eqn:E2; cbn.
      * destruct (respond drv (ElementClick b) w2) as [[[]|x] w3] eqn:E3; cbn.
        -- eexists; split; [repeat rewrite <- app_assoc; reflexivity|].
           eapply consent_run_accepted; eauto.
        -- match goal with
           | |- context [cookie_consent_loop drv rest ?s'] =>
               destruct (IH s') as (evs & T & R); cbn [trace world] in T, R;
               rewrite T; eexists; split; [repeat rewrite <- app_assoc; reflexivity|];
               eapply consent_run_failed; eauto
           end.
      * match goal with
        | |- context [cookie_consent_loop drv rest ?s'] =>
            destruct (IH s') as (evs & T & R); cbn [trace world] in T, R;
            rewrite T; eexists; split; [repeat rewrite <- app_assoc; reflexivity|];
            eapply consent_run_blocked; eauto
        end.
    + destruct x; cbn;
        match goal with
        | |- context [cookie_consent_loop drv rest ?s'] =>
            destruct (IH s') as (evs & T & R); cbn [trace world] in T, R;
            rewrite T; eexists; split; [repeat rewrite <- app_assoc; reflexivity|];
            eapply consent_run_unseen; eauto
        end.
Qed.

Lemma handle_cookie_consent_ok s : fst (handle_cookie_consent drv s) = Ok tt.
Proof.
  destruct (cookie_consent_loop_stops cookie_selectors s) as (evs & R & _).
  unfold handle_cookie_consent, try_except.
  destruct (cookie_consent_loop drv cookie_selectors s) as [r s1]; cbn in R; subst r.
  reflexivity.
Qed.

Lemma handle_modals_ok s : fst (handle_modals drv s) = Ok None.
Proof.
  destruct (handle_mature_content_ok drv s) as (s1 & evs1 & E1 & _).
  destruct (catch_all_ok (close_modals_loop drv close_selectors) tt s1) as ((u & Hu) & _).
  unfold handle_modals, bind; rewrite E1.
  destruct (try_except (close_modals_loop drv close_selectors) (fun _ => ret tt) s1)
    as [r2 s2]; cbn in Hu; subst r2; reflexivity.
Qed.

(** X5.  [handle_cookie_consent] never raises.  It goes through the
    consent buttons in the order of its list: it waits for each one to be
    visible, waits for one it saw to be clickable and clicks the element
    that wait returned; it goes on to the next button after a request that
    raised, and nothing follows the first click that succeeds. *)
Theorem handle_cookie_consent_outcome s :
  fst (handle_cookie_consent drv s) = Ok tt
  /\ exists evs,
      trace (snd (handle_cookie_consent drv s)) = (trace s ++ evs)%list
      /\ consent_run drv cookie_selectors (world s) evs
      /\ stops_at_first_close evs = true
      /\ exists k, looked_for evs = firstn k cookie_selectors.
Proof.
  destruct (cookie_consent_loop_stops cookie_selectors s) as (evs & R & T & St & Hk).
  destruct (cookie_consent_loop_run cookie_selectors s) as (evs' & T' & Hrun).
  assert (evs' = evs) by (rewrite T in T'; now apply app_inv_head in T').
  subst evs'.
  unfold handle_cookie_consent, try_except.
  destruct (cookie_consent_loop drv cookie_selectors s) as [r s1]; cbn in R, T; subst r.
  split; [reflexivity | exists evs; auto].
Qed.

(** X6.  The overlay handling never changes the outcome of loading a page:
    [TwitchHomePage.open] returns or raises as the navigation followed by
    the wait for the page does, and [TwitchStreamerPage.wait_for_page_to_load]
    as [wait_for_page_load] does. *)
Theorem overlays_never_change_the_outcome s :
  fst (open drv s) = fst ((navigate_to drv url ;; wait_for_page_load drv 30000) s)
  /\ forall timeout,
      fst (wait_for_page_to_load drv timeout s) = fst (wait_for_page_load drv timeout s).
Proof.
  split.
  - unfold open, bind.
    destruct (navigate_to drv url s) as [[u|e] s1]; [|reflexivity].
    destruct (wait_for_page_load drv 30000 s1) as [[[]|e] s2]; [|reflexivity].
    apply handle_cookie_consent_ok.
  - intros timeout; unfold wait_for_page_to_load, bind.
    destruct (wait_for_page_load drv timeout s) as [[[]|e] s1]; [|reflexivity].
    pose proof (handle_modals_ok s1) as H.
    destruct (handle_modals drv s1) as [r s2]; cbn in H; subst r; reflexivity.
Qed.

End Consent.

(** ** The cards and the click on the first one *)

Lemma scripts_app evs1 evs2 :
  scripts (evs1 ++ evs2) = (scripts evs1 ++ scripts evs2)%list.
Proof.
  induction evs1 as [|ev evs1 IH]; cbn; [reflexivity|].
  destruct (ev_call ev); cbn; now rewrite ?IH.
Qed.

Lemma quiet_scripts evs :
  forallb quiet evs = true -> scripts evs = [] /\ native_clicks evs = [].
Proof.
  induction evs as [|ev evs IH]; cbn; [auto|].
  unfold quiet at 1; destruct (ev_call ev); cbn; try discriminate; exact IH.
Qed.

Lemma screenshots_app evs1 evs2 :
  screenshots (evs1 ++ evs2) = (screenshots evs1 ++ screenshots evs2)%list.
Proof.
  induction evs1 as [|ev evs1 IH]; cbn; [reflexivity|].
  destruct (ev_call ev); cbn; now rewrite ?IH.
Qed.

Ltac close_scripts :=
  repeat match goal with
         | H : forallb quiet _ = true |- _ =>
             apply quiet_scripts in H; destruct H as [? ?]
         end;
  repeat match goal with
         | H : trace _ = _ |- _ => rewrite H; clear H
         end;
  eexists; split; [repeat rewrite <- app_assoc; reflexivity|];
  rewrite ?scripts_app, ?screenshots_app, ?native_clicks_app;
  repeat match goal with
         | H : scripts _ = [] |- _ => rewrite H; clear H
         | H : native_clicks _ = [] |- _ => rewrite H; clear H
         end;
  cbn; repeat split; auto; try discriminate;
  try (intros H; discriminate H);
  try first [ left; reflexivity
            | right; left; reflexivity
            | right; right; reflexivity ].

Section Cards.

Context {W : Type} (drv : Driver W).

Lemma filter_channel_links_reads cards :
  adds reads (filter_channel_links drv cards).
Proof.
  induction cards as [|card rest IH]; cbn [filter_channel_links];
    unfold _is_channel_link; adds_tac; exact IH.
Qed.

Lemma streamer_cards_loop_reads selectors :
  forall cards, adds reads (streamer_cards_loop drv selectors cards).
Proof.
  induction selectors as [|sel rest IH]; intros cards; cbn [streamer_cards_loop];
    unfold find_elements; adds_tac; auto using filter_channel_links_reads.
Qed.

(** X7.  Resolving the cards only reads the page: whatever the session
    answers, every request of [get_live_streamer_cards], and of its alias
    [get_streamer_cards], asks for a match set or reads an [href]; nothing is
    clicked, typed, scrolled or navigated. *)
Theorem get_live_streamer_cards_only_reads :
  adds reads (get_live_streamer_cards drv)
  /\ adds reads (get_streamer_cards drv).
Proof.
  split; unfold get_streamer_cards, get_live_streamer_cards; adds_tac;
    apply streamer_cards_loop_reads.
Qed.

(** X8.  When the resolution gives no card, [click_first_live_streamer]
    clicks nothing and runs no script, asks first for the screenshot
    [no_streamers_found], and does not return normally.  When the
    screenshots are taken without error it takes a second one,
    [click_streamer_error], and raises the exception that says that no live
    streamer was found. *)
Theorem click_first_live_streamer_without_cards s s1 :
  get_live_streamer_cards drv s = (Ok [], s1) ->
  exists evs,
    trace (snd (click_first_live_streamer drv s)) = (trace s1 ++ evs)%list
    /\ scripts evs = []
    /\ native_clicks evs = []
    /\ hd_error (screenshots evs) = Some "no_streamers_found"
    /\ is_ok (fst (click_first_live_streamer drv s)) = false
    /\ (forallb answered evs = true ->
        fst (click_first_live_streamer drv s)
        = Raise (Exception "No LIVE streamers found in search results")
        /\ screenshots evs = ["no_streamers_found"; "click_streamer_error"]).
Proof.
  intros Hc.
  unfold click_first_live_streamer, take_screenshot, try_except, bind, request,
    ret, raise.
  rewrite Hc; cbn.
  repeat answer drv; close_scripts.
Qed.

(** X9.  When the resolution gives cards, only the first one is acted on:
    the scripts [click_first_live_streamer] runs are the scroll of the first
    card into view and then the script click on it, in this order, each at
    most once; both ran when the operation returns normally.  No native
    click is requested. *)
Theorem click_first_live_streamer_target s c rest s1 :
  get_live_streamer_cards drv s = (Ok (c :: rest), s1) ->
  exists evs,
    trace (snd (click_first_live_streamer drv s)) = (trace s1 ++ evs)%list
    /\ native_clicks evs = []
    /\ (scripts evs = []
        \/ scripts evs = [JsScrollIntoViewCenter c]
        \/ scripts evs = [JsScrollIntoViewCenter c; JsClick c])
    /\ (fst (click_first_live_streamer drv s) = Ok tt ->
        scripts evs = [JsScrollIntoViewCenter c; JsClick c]).
Proof.
  intros Hc.
  unfold click_first_live_streamer.
  match goal with
  | |- context [WebDriverWait_until drv 5000 ?m] =>
      assert (Hw : adds quiet (WebDriverWait_until drv 5000 m)) by adds_tac;
      generalize dependent (WebDriverWait_until drv 5000 m); intros wait Hw
  end.
  unfold take_screenshot, try_except, bind, request, ret, raise.
  rewrite Hc; cbn.
  repeat answer drv;
    try match goal with
        | |- context [if String.eqb ?t EmptyString then _ else _] =>
            destruct (String.eqb t EmptyString); cbn
        end;
    repeat answer drv; try blackbox wait Hw; repeat answer drv; close_scripts.
Qed.

End Cards.

Lemma click_first_live_streamer_without_cards_witness :
  is_ok (fst (click_first_live_streamer page_driver (start blank_page))) = false.
Proof.
  destruct (@click_first_live_streamer_without_cards _ page_driver (start blank_page)
              (snd (get_live_streamer_cards page_driver (start blank_page))) eq_refl)
    as (evs & _ & _ & _ & _ & H & _).
  exact H.
Defined.

Lemma click_first_live_streamer_target_witness :
  exists evs,
    trace (snd (click_first_live_streamer page_driver (start clickable_page)))
    = (trace (snd (get_live_streamer_cards page_driver (start clickable_page))) ++ evs)%list
    /\ native_clicks evs = []
    /\ (scripts evs = []
        \/ scripts evs = [JsScrollIntoViewCenter 2]
        \/ scripts evs = [JsScrollIntoViewCenter 2; JsClick 2])
    /\ (fst (click_first_live_streamer page_driver (start clickable_page)) = Ok tt ->
        scripts evs = [JsScrollIntoViewCenter 2; JsClick 2]).
Proof.
  apply (@click_first_live_streamer_target _ page_driver (start clickable_page) 2 []).
  reflexivity.
Defined.

(** ** The cards of a page held still *)

Section HeldCards.

Variable p : page.

Hypothesis Hf : forall c, pg_fault p c = None.

Let links (l : locator) : list element := filter (is_channel p) (pg_elements p l).

Lemma page_cards t :
  exists cards evs,
    get_live_streamer_cards page_driver {| world := p; trace := t |}
    = (Ok cards, {| world := p; trace := (t ++ evs)%list |})
    /\ ((exists sel, In sel selectors_to_try /\ links sel <> [] /\ cards = links sel)
        \/ ((forall l, In l selectors_to_try -> links l = [])
            /\ cards = first_ten (pg_elements p ANY_LINK))).
Proof.
  unfold get_live_streamer_cards, try_except.
  destruct (first_hit_or_none p selectors_to_try)
    as [Hnone | (pre & sel & post & E & Hpre & Hsel)].
  - destruct (@page_loop_miss p Hf selectors_to_try Hnone [] t) as (evs & -> & _).
    do 2 eexists; split; [reflexivity|]; right; split; [exact Hnone | reflexivity].
  - rewrite E.
    destruct (@page_loop_hit p Hf pre sel post Hpre Hsel [] t) as (evs & -> & _).
    do 2 eexists; split; [reflexivity|]; left; exists sel.
    split; [apply in_elt | split; [exact Hsel | reflexivity]].
Qed.

Lemma first_ten_length (l : list element) : List.length (first_ten l) <= 10.
Proof.
  destruct l; cbn [first_ten]; [cbn; lia | apply firstn_le_length].
Qed.

(** X10.  The cap of ten applies to the unfiltered fallback only.  On a
    page held still, a result of [get_live_streamer_cards] with more than
    ten cards comes from a strategy whose channel links were kept, all of
    them: every card of it is a channel link. *)
Theorem more_than_ten_cards_are_channel_links t cards s' :
  get_live_streamer_cards page_driver {| world := p; trace := t |} = (Ok cards, s') ->
  10 < List.length cards ->
  forall e, In e cards -> is_channel p e = true.
Proof.
  intros E L e He.
  destruct (page_cards t) as (cards' & evs & E' & [(sel & _ & _ & ->) | (_ & ->)]);
    rewrite E' in E; injection E as <- _.
  - apply filter_In in He; tauto.
  - pose proof (first_ten_length (pg_elements p ANY_LINK)); lia.
Qed.

(** X11.  On a page held still, [is_search_results_page_loaded] answers
    [True] exactly when the address contains [/search] and the page has a
    channel link under one of the strategies or any element at all under
    the last selector: a results page whose only links are navigation
    links counts as loaded. *)
Theorem is_search_results_page_loaded_iff t :
  fst (is_search_results_page_loaded page_driver {| world := p; trace := t |}) = Ok true
  <-> (PyStr.contains "/search" (pg_url p) = true
       /\ ((exists sel, In sel selectors_to_try /\ links sel <> [])
           \/ pg_elements p ANY_LINK <> [])).
Proof.
  unfold is_search_results_page_loaded, get_current_url, bind.
  rewrite page_request by apply Hf; cbn [fst snd page_answer].
  match goal with
  | |- context [get_live_streamer_cards page_driver {| world := p; trace := ?t' |}] =>
      destruct (page_cards t') as (cards & evs & -> & Hc)
  end.
  unfold ret; cbn [fst].
  split.
  - intros H; injection H as H; apply andb_prop in H; destruct H as [Hu Hl].
    split; [exact Hu|].
    destruct Hc as [(sel & Hin & Hne & _) | (_ & ->)]; [left; eauto|].
    right; intros E; rewrite E in Hl; discriminate Hl.
  - intros [Hu Hd]; rewrite Hu; cbn [andb]; do 2 f_equal.
    destruct Hc as [(sel & _ & Hne & ->) | (Hnone & ->)].
    + destruct (links sel); [contradiction | reflexivity].
    + destruct Hd as [(sel & Hin & Hne) | Hne]; [elim Hne; auto|].
      destruct (pg_elements p ANY_LINK) as [|e l]; [contradiction | reflexivity].
Qed.

(** X12.  On a page held still without a channel link under any strategy,
    [click_first_live_streamer] scrolls to and script-clicks the first
    element under the last selector, which the classifier does not take for
    a channel. *)
Theorem click_first_live_streamer_fallback_target t e rest :
  (forall l, In l selectors_to_try -> links l = []) ->
  pg_elements p ANY_LINK = e :: rest ->
  is_channel p e = false
  /\ exists evs,
      trace (snd (click_first_live_streamer page_driver {| world := p; trace := t |}))
      = (trace (snd (get_live_streamer_cards page_driver {| world := p; trace := t |}))
         ++ evs)%list
      /\ scripts evs = [JsScrollIntoViewCenter e; JsClick e].
Proof.
  intros Hnone He; split.
  - assert (Hl : links ANY_LINK = []) by (apply Hnone; cbn; auto 10).
    unfold links in Hl; rewrite He in Hl; cbn in Hl.
    destruct (is_channel p e); [discriminate | reflexivity].
  - destruct (@page_loop_miss p Hf selectors_to_try Hnone [] t) as (evs0 & E0 & _).
    cbn [fold_left selectors_to_try] in E0.
    fold ANY_LINK in E0; rewrite He in E0.
    change (first_ten (e :: rest)) with (e :: firstn 9 rest) in E0.
    unfold click_first_live_streamer.
    match goal with
    | |- context [WebDriverWait_until page_driver 5000 ?m] =>
        assert (Hw : adds quiet (WebDriverWait_until page_driver 5000 m)) by adds_tac;
        generalize dependent (WebDriverWait_until page_driver 5000 m); intros wait Hw
    end.
    unfold get_live_streamer_cards, take_screenshot, try_except, bind, ret, raise.
    rewrite E0; cbn [snd trace].
    repeat (rewrite page_request by apply Hf; cbn [fst snd page_answer page_script]).
    destruct (String.eqb (pg_text p e) EmptyString);
      repeat (rewrite page_request by apply Hf; cbn [fst snd page_answer page_script]);
      match goal with
      | |- context [wait ?s'] =>
          destruct (Hw s') as (evsw & Tw & Fw);
          destruct (wait s') as [[b|x] s2]; cbn [snd trace] in Tw
      end;
      unfold request; repeat answer page_driver;
      apply quiet_scripts in Fw; destruct Fw as [Fs _];
      cbn [snd trace]; rewrite ?Tw;
      (eexists; split; [repeat rewrite <- app_assoc; reflexivity|]);
      rewrite ?scripts_app, Fs; cbn; reflexivity.
Qed.

End HeldCards.

Lemma more_than_ten_cards_are_channel_links_witness :
  is_channel busy_page 11 = true.
Proof.
  apply (@more_than_ten_cards_are_channel_links busy_page (fun _ => eq_refl) []
           [1; 2; 3; 4; 5; 6; 7; 8; 9; 10; 11]
           (snd (get_live_streamer_cards page_driver (start busy_page)))).
  - reflexivity.
  - cbn; lia.
  - cbn; auto 20.
Defined.

Lemma is_search_results_page_loaded_iff_witness :
  fst (is_search_results_page_loaded page_driver (start chrome_only_page)) = Ok true.
Proof.
  apply (proj2 (@is_search_results_page_loaded_iff chrome_only_page (fun _ => eq_refl) [])).
  split; [reflexivity|].
  right; discriminate.
Defined.

Lemma click_first_live_streamer_fallback_target_witness :
  is_channel chrome_only_page 4 = false
  /\ exists evs,
      trace (snd (click_first_live_streamer page_driver (start chrome_only_page)))
      = (trace (snd (get_live_streamer_cards page_driver (start chrome_only_page)))
         ++ evs)%list
      /\ scripts evs = [JsScrollIntoViewCenter 4; JsClick 4].
Proof.
  apply (@click_first_live_streamer_fallback_target chrome_only_page (fun _ => eq_refl)
           [] 4 []).
  - intros l H; cbn in H.
    repeat match goal with
           | H : _ \/ _ |- _ => destruct H as [<-|H]; [reflexivity|]
           end.
    destruct H.
  - reflexivity.
Defined.

(** ** Typing the query *)

Section SearchField.

Context {W : Type} (drv : Driver W).

Ltac answer_eq :=
  match goal with
  | |- context [respond drv ?c ?w] =>
      let r := fresh "r" in
      let x := fresh "x" in
      let w' := fresh "w" in
      let E := fresh "E" in
      destruct (respond drv c w) as [[r|x] w'] eqn:E; [|try destruct x]; cbn
  end.

Ltac field_found :=
  unfold search_field_of;
  first [ left; do 3 eexists; split; eassumption
        | right; do 4 eexists; split; [eassumption | split; eassumption] ].

Ltac close_search :=
  eexists; split; [repeat rewrite <- app_assoc; reflexivity|];
  cbn; split; intros H; try discriminate H; split; try reflexivity;
  first [ left; reflexivity
        | right; eexists; exists 1; split; [|reflexivity]; field_found
        | right; eexists; exists 2; split; [|reflexivity]; field_found
        | right; eexists; exists 3; split; [|reflexivity]; field_found
        | right; eexists; exists 4; split; [|reflexivity]; field_found
        | eexists; split; [|reflexivity]; field_found ].

(** X13.  [enter_search_query] touches one element only, the search field
    it resolved: the element the presence wait returned for the locator that
    was seen visible.  It sends to it, in this order, a click, a clearing,
    the query and ENTER.  When it returns all four were sent and no
    screenshot was taken; when it raises, a prefix of them was sent, nothing
    at all unless the field was resolved, and the one screenshot asked for
    is [search_query_error]. *)
Theorem enter_search_query_keystrokes query s :
  exists evs,
    trace (snd (enter_search_query drv query s)) = (trace s ++ evs)%list
    /\ (is_ok (fst (enter_search_query drv query s)) = true ->
        screenshots evs = []
        /\ exists e, search_field_of drv (world s) e
                     /\ field_calls evs = search_keystrokes e query)
    /\ (is_ok (fst (enter_search_query drv query s)) = false ->
        screenshots evs = ["search_query_error"]
        /\ (field_calls evs = []
            \/ exists e k, search_field_of drv (world s) e
                           /\ field_calls evs = firstn k (search_keystrokes e query))).
Proof.
  unfold enter_search_query, is_element_visible, find_element, get_current_url,
    take_screenshot, self_wait, try_except, bind, request, on_timeout, ret, raise.
  repeat answer_eq; close_search.
Qed.

(** X14.  When neither search field becomes visible, [enter_search_query]
    sends nothing to any element: after the two waits it asks for the
    screenshot [search_query_error] and raises the exception that says that
    the field was not found, or the exception of the screenshot when that
    fails. *)
Theorem enter_search_query_field_not_found query s w1 w2 :
  respond drv (UntilVisibility 5000 SEARCH_INPUT) (world s) = (Raise TimeoutException, w1) ->
  respond drv (UntilVisibility 5000 SEARCH_INPUT_ALT) w1 = (Raise TimeoutException, w2) ->
  exists evs,
    trace (snd (enter_search_query drv query s)) = (trace s ++ evs)%list
    /\ field_calls evs = []
    /\ map ev_call evs
       = [UntilVisibility 5000 SEARCH_INPUT; UntilVisibility 5000 SEARCH_INPUT_ALT;
          DriverSaveScreenshot "search_query_error"]
    /\ (fst (enter_search_query drv query s)
        = Raise (Exception "Search input field not found")
        \/ exists e,
            fst (enter_search_query drv query s) = Raise e
            /\ fst (respond drv (DriverSaveScreenshot "search_query_error") w2) = Raise e).
Proof.
  intros H1 H2.
  unfold enter_search_query, is_element_visible, find_element, get_current_url,
    take_screenshot, try_except, bind, request, on_timeout, ret, raise.
  rewrite H1; cbn; rewrite H2; cbn.
  destruct (respond drv (DriverSaveScreenshot "search_query_error") w2)
    as [[path|e] w3]; cbn;
    (eexists; split; [repeat rewrite <- app_assoc; reflexivity|]);
    cbn; repeat split; eauto.
Qed.

End SearchField.

Lemma enter_search_query_field_not_found_witness :
  exists evs,
    trace (snd (enter_search_query page_driver "StarCraft II" (start blank_page)))
    = (trace (start blank_page) ++ evs)%list
    /\ field_calls evs = []
    /\ map ev_call evs
       = [UntilVisibility 5000 SEARCH_INPUT; UntilVisibility 5000 SEARCH_INPUT_ALT;
          DriverSaveScreenshot "search_query_error"]
    /\ (fst (enter_search_query page_driver "StarCraft II" (start blank_page))
        = Raise (Exception "Search input field not found")
        \/ exists e,
            fst (enter_search_query page_driver "StarCraft II" (start blank_page)) = Raise e
            /\ fst (respond page_driver (DriverSaveScreenshot "search_query_error") blank_page)
               = Raise e).
Proof.
  apply (@enter_search_query_field_not_found _ page_driver "StarCraft II"
           (start blank_page) blank_page blank_page);
    reflexivity.
Defined.

(** ** What the streamer page reads *)

Section StreamerReads.

Context {W : Type} (drv : Driver W).

Lemma is_video_player_visible_ok s :
  exists b, fst (is_video_player_visible drv s) = Ok b.
Proof.
  unfold is_video_player_visible.
  match goal with
  | |- context [try_except ?body _ _] => destruct (catch_all_ok body true s) as (H & _)
  end.
  exact H.
Qed.

(** X15.  [is_stream_live] never raises.  It answers [True] when the live
    indicator becomes visible; when the wait for the indicator times out it
    does what [is_video_player_visible] does from there, result and
    requests; and it answers [False] when the wait raises another
    exception. *)
Theorem is_stream_live_outcome s :
  (exists b, fst (is_stream_live drv s) = Ok b)
  /\ (forall e,
         fst (request drv (UntilVisibility 10000 LIVE_INDICATOR) s) = Ok e ->
         fst (is_stream_live drv s) = Ok true)
  /\ (fst (request drv (UntilVisibility 10000 LIVE_INDICATOR) s) = Raise TimeoutException ->
      is_stream_live drv s
      = is_video_player_visible drv
          (snd (request drv (UntilVisibility 10000 LIVE_INDICATOR) s)))
  /\ (forall e,
         fst (request drv (UntilVisibility 10000 LIVE_INDICATOR) s) = Raise e ->
         e <> TimeoutException ->
         fst (is_stream_live drv s) = Ok false).
Proof.
  split; [|split; [|split]].
  - unfold is_stream_live.
    match goal with
    | |- context [try_except ?body _ _] => destruct (catch_all_ok body false s) as (H & _)
    end.
    exact H.
  - intros e.
    unfold is_stream_live, is_element_visible, try_except, bind.
    destruct (request drv (UntilVisibility 10000 LIVE_INDICATOR) s) as [[r|x] s1]; cbn;
      intros H; [reflexivity|discriminate].
  - unfold is_stream_live, is_element_visible, try_except at 1 2, bind.
    destruct (request drv (UntilVisibility 10000 LIVE_INDICATOR) s) as [[r|x] s1]; cbn;
      intros H; [discriminate|].
    injection H as ->; cbn.
    destruct (is_video_player_visible_ok s1) as (b & Hb).
    destruct (is_video_player_visible drv s1) as [r1 s2]; cbn in Hb; subst r1.
    reflexivity.
  - intros e.
    unfold is_stream_live, is_element_visible, try_except, bind.
    destruct (request drv (UntilVisibility 10000 LIVE_INDICATOR) s) as [[r|x] s1]; cbn;
      intros H Hn; [discriminate|].
    injection H as ->.
    destruct e; cbn; try reflexivity; congruence.
Qed.

(** The shape [get_stream_title] and [get_streamer_name] share. *)
Lemma text_or_empty_outcome (l : locator) s :
  let m := try_except
             (visible <- is_element_visible drv l 10000 ;;
              if visible then get_text drv l else ret EmptyString)
             (fun _ => ret EmptyString) in
  (exists t, fst (m s) = Ok t)
  /\ (forall t, fst (m s) = Ok t -> t <> EmptyString ->
      exists v e w1 w2 w3,
        respond drv (UntilVisibility 10000 l) (world s) = (Ok v, w1)
        /\ respond drv (UntilPresence 5000 l) w1 = (Ok e, w2)
        /\ respond drv (ElementText e) w2 = (Ok t, w3)).
Proof.
  intros m; split.
  - subst m.
    match goal with
    | |- context [try_except ?body _ _] =>
        destruct (catch_all_ok body EmptyString s) as (H & _)
    end.
    exact H.
  - intros t; subst m.
    unfold is_element_visible, get_text, find_element, self_wait,
      try_except, bind, request, ret, raise; cbn.
    destruct (respond drv (UntilVisibility 10000 l) (world s)) as [[v|x] w1] eqn:E1; cbn.
    + destruct (respond drv (UntilPresence 5000 l) w1) as [[e|x] w2] eqn:E2; cbn.
      * destruct (respond drv (ElementText e) w2) as [[t'|x] w3] eqn:E3; cbn.
        -- intros H _; injection H as ->. eauto 10.
        -- intros H Hn; injection H as <-; now elim Hn.
      * destruct x; cbn; intros H Hn; injection H as <-; now elim Hn.
    + destruct x; cbn; intros H Hn; injection H as <-; now elim Hn.
Qed.

(** X16.  [get_stream_title] and [get_streamer_name] never raise, and the
    empty string is their answer to every failure: a text that is not empty
    is the text of the element, read after the element was seen visible and
    then found present. *)
Theorem stream_texts_outcome s :
  ((exists t, fst (get_stream_title drv s) = Ok t)
   /\ (forall t, fst (get_stream_title drv s) = Ok t -> t <> EmptyString ->
       exists v e w1 w2 w3,
         respond drv (UntilVisibility 10000 STREAM_TITLE) (world s) = (Ok v, w1)
         /\ respond drv (UntilPresence 5000 STREAM_TITLE) w1 = (Ok e, w2)
         /\ respond drv (ElementText e) w2 = (Ok t, w3)))
  /\ ((exists t, fst (get_streamer_name drv s) = Ok t)
      /\ (forall t, fst (get_streamer_name drv s) = Ok t -> t <> EmptyString ->
          exists v e w1 w2 w3,
            respond drv (UntilVisibility 10000 STREAMER_NAME) (world s) = (Ok v, w1)
            /\ respond drv (UntilPresence 5000 STREAMER_NAME) w1 = (Ok e, w2)
            /\ respond drv (ElementText e) w2 = (Ok t, w3))).
Proof.
  split.
  - exact (text_or_empty_outcome STREAM_TITLE s).
  - exact (text_or_empty_outcome STREAMER_NAME s).
Qed.

End StreamerReads.

(** ** The plain click and the typing of [BasePage] *)

Section BaseInput.

Context {W : Type} (drv : Driver W).

(** X17.  [BasePage.click] has no fallback: it waits for the element to be
    clickable and requests one native click on what the wait returned,
    without any script, and the first exception of the two, a timeout of the
    wait or an intercepted click, is the one it raises. *)
Theorem click_is_native_only l s :
  exists evs,
    trace (snd (click drv l s)) = (trace s ++ evs)%list
    /\ scripts evs = []
    /\ (forall e w1, respond drv (UntilClickable 5000 l) (world s) = (Ok e, w1) ->
        run_of [UntilClickable 5000 l; ElementClick e] evs (raised (fst (click drv l s))))
    /\ (forall x w1, respond drv (UntilClickable 5000 l) (world s) = (Raise x, w1) ->
        run_of [UntilClickable 5000 l] evs (Some x)
        /\ fst (click drv l s) = Raise x).
Proof.
  unfold click, self_wait, try_except, bind, request, raise.
  destruct (respond drv (UntilClickable 5000 l) (world s)) as [[e|x] w1] eqn:E1; cbn.
  - destruct (respond drv (ElementClick e) w1) as [[u|x] w2] eqn:E2; cbn;
      eexists; (split; [rewrite <- app_assoc; reflexivity|]);
      (split; [reflexivity|]); (split; [|intros; discriminate]);
      intros e' w' H; injection H as <- <-; cbn; auto.
  - eexists; split; [reflexivity|]. split; [reflexivity|].
    split; [intros; discriminate|].
    intros x' w' H; injection H as <- <-; cbn; auto.
Qed.

(** X18.  [type_text] types into the element its presence wait returned:
    it clears the element first exactly when [clear_first] is set, then
    sends the text, and sends no ENTER.  A request is made only after the
    one before it was answered normally, and the exception of the request
    that failed is the one raised. *)
Theorem type_text_requests l text clear_first s :
  exists evs,
    trace (snd (type_text drv l text clear_first s)) = (trace s ++ evs)%list
    /\ (forall e w1, respond drv (UntilPresence 5000 l) (world s) = (Ok e, w1) ->
        run_of (UntilPresence 5000 l
                :: (if clear_first then [ElementClear e] else [])
                ++ [ElementSendKeys e (Text text)])%list
               evs (raised (fst (type_text drv l text clear_first s))))
    /\ (forall x w1, respond drv (UntilPresence 5000 l) (world s) = (Raise x, w1) ->
        run_of [UntilPresence 5000 l] evs (Some x)
        /\ fst (type_text drv l text clear_first s) = Raise x).
Proof.
  unfold type_text, find_element, self_wait, try_except, bind, request, raise, ret.
  destruct (respond drv (UntilPresence 5000 l) (world s)) as [[e|x] w1] eqn:E1; cbn.
  - destruct clear_first; cbn.
    + destruct (respond drv (ElementClear e) w1) as [[u|x] w2] eqn:E2; cbn.
      * destruct (respond drv (ElementSendKeys e (Text text)) w2) as [[u'|x] w3] eqn:E3; cbn;
          eexists; (split; [repeat rewrite <- app_assoc; reflexivity|]);
          (split; [|intros; discriminate]);
          intros e' w' H; injection H as <- <-; cbn; rewrite ?E2, ?E3; cbn; auto.
      * eexists; (split; [repeat rewrite <- app_assoc; reflexivity|]);
          (split; [|intros; discriminate]);
          intros e' w' H; injection H as <- <-; cbn; rewrite ?E2; cbn; auto.
    + destruct (respond drv (ElementSendKeys e (Text text)) w1) as [[u'|x] w3] eqn:E3; cbn;
        eexists; (split; [repeat rewrite <- app_assoc; reflexivity|]);
        (split; [|intros; discriminate]);
        intros e' w' H; injection H as <- <-; cbn; rewrite ?E3; cbn; auto.
  - destruct x; cbn;
      (eexists; split; [reflexivity|]; split; [intros; discriminate|];
       intros x' w' H; injection H as <- <-; cbn; auto).
Qed.

End BaseInput.

(** ** The search icon *)

Section SearchIcon.

Context {W : Type} (drv : Driver W).

(** X19.  When the session finds the search icon, [click_search_icon]
    never looks for the alternative button.  It looks the icon up a second
    time, with the presence wait, and it is the element of this second
    lookup that the script clicks; an exception of the wait or of the script
    is raised as it is. *)
Theorem click_search_icon_prefers_icon s e0 w1 :
  respond drv (DriverFindElement SEARCH_ICON) (world s) = (Ok e0, w1) ->
  exists evs,
    trace (snd (click_search_icon drv s)) = (trace s ++ evs)%list
    /\ (forall e w2, respond drv (UntilPresence 5000 SEARCH_ICON) w1 = (Ok e, w2) ->
        run_of [DriverFindElement SEARCH_ICON; UntilPresence 5000 SEARCH_ICON;
                DriverExecuteScript (JsClick e)]
               evs (raised (fst (click_search_icon drv s))))
    /\ (forall x w2, respond drv (UntilPresence 5000 SEARCH_ICON) w1 = (Raise x, w2) ->
        run_of [DriverFindElement SEARCH_ICON; UntilPresence 5000 SEARCH_ICON] evs (Some x)
        /\ fst (click_search_icon drv s) = Raise x).
Proof.
  intros H0.
  unfold click_search_icon, is_element_present, find_element, self_wait,
    try_except, bind, request, raise, ret.
  rewrite H0; cbn.
  destruct (respond drv (UntilPresence 5000 SEARCH_ICON) w1) as [[e|x] w2] eqn:E1; cbn.
  - destruct (respond drv (DriverExecuteScript (JsClick e)) w2) as [[u|x] w3] eqn:E2; cbn;
      eexists; (split; [repeat rewrite <- app_assoc; reflexivity|]);
      (split; [|intros; discriminate]);
      intros e' w' H; injection H as <- <-; cbn; auto.
  - destruct x; cbn;
      (eexists; split; [repeat rewrite <- app_assoc; reflexivity|];
       split; [intros; discriminate|];
       intros x' w' H; injection H as <- <-; cbn; auto).
Qed.

(** X20.  When the page has neither the search icon nor the alternative
    button, [search_for] stops after the two lookups: it raises the
    exception that says that the icon is not present, and the search field
    is never looked for nor typed into. *)
Theorem search_for_without_icon query s w1 w2 :
  respond drv (DriverFindElement SEARCH_ICON) (world s) = (Raise NoSuchElementException, w1) ->
  respond drv (DriverFindElement SEARCH_BUTTON) w1 = (Raise NoSuchElementException, w2) ->
  search_for drv query s
  = (Raise (Exception "Search icon not present"),
     {| world := w2;
        trace := (trace s
                  ++ [ {| ev_call := DriverFindElement SEARCH_ICON;
                          ev_raised := Some NoSuchElementException |};
                       {| ev_call := DriverFindElement SEARCH_BUTTON;
                          ev_raised := Some NoSuchElementException |} ])%list |}).
Proof.
  intros H1 H2.
  unfold search_for, bind at 1.
  unfold click_search_icon, is_element_present, find_element, self_wait,
    try_except, bind, request, raise, ret.
  rewrite H1; cbn. rewrite H2; cbn.
  now rewrite <- app_assoc.
Qed.

End SearchIcon.

Lemma click_search_icon_prefers_icon_witness :
  exists evs,
    trace (snd (click_search_icon page_driver (start clickable_page)))
    = (trace (start clickable_page) ++ evs)%list
    /\ (forall e w2,
           respond page_driver (UntilPresence 5000 SEARCH_ICON) clickable_page = (Ok e, w2) ->
           run_of [DriverFindElement SEARCH_ICON; UntilPresence 5000 SEARCH_ICON;
                   DriverExecuteScript (JsClick e)]
                  evs (raised (fst (click_search_icon page_driver (start clickable_page)))))
    /\ (forall x w2,
           respond page_driver (UntilPresence 5000 SEARCH_ICON) clickable_page = (Raise x, w2) ->
           run_of [DriverFindElement SEARCH_ICON; UntilPresence 5000 SEARCH_ICON] evs (Some x)
           /\ fst (click_search_icon page_driver (start clickable_page)) = Raise x).
Proof.
  apply (@click_search_icon_prefers_icon _ page_driver (start clickable_page) 7
           clickable_page).
  reflexivity.
Defined.

Lemma search_for_without_icon_witness :
  search_for page_driver "StarCraft II" (start blank_page)
  = (Raise (Exception "Search icon not present"),
     {| world := blank_page;
        trace := [ {| ev_call := DriverFindElement SEARCH_ICON;
                      ev_raised := Some NoSuchElementException |};
                   {| ev_call := DriverFindElement SEARCH_BUTTON;
                      ev_raised := Some NoSuchElementException |} ] |}).
Proof.
  apply (@search_for_without_icon _ page_driver "StarCraft II" (start blank_page)
           blank_page blank_page);
    reflexivity.
Defined.

(** ** The set-up of the session *)

Section Setup.

Context {W : Type} (drv : Driver W).

(** X21.  A test only ever gets a session that was created and fully
    configured.  When the set-up of the fixture yields, the browser is one
    of the three supported ones and the requests made are the creation, the
    implicit wait of 1 second, the page-load timeout of 8, the script
    timeout of 5 and, unless in mobile mode, the maximising of the window,
    in this order and all answered normally. *)
Theorem test_gets_a_configured_session c s d s' :
  driver_setup drv c s = (Ok d, s') ->
  d = true
  /\ exists call0,
      creation_request c = Some call0
      /\ trace s'
         = (trace s
            ++ map (fun c0 => {| ev_call := c0; ev_raised := None |})
                 (call0 :: configuration (opt_mobile c)))%list.
Proof.
  unfold driver_setup, fixture_try, fixture_finally, create_driver, configure_driver,
    creation_request, configuration.
  destruct (String.eqb (fixture_browser c) "chrome");
    [|destruct (String.eqb (fixture_browser c) "firefox");
      [|destruct (String.eqb (fixture_browser c) "edge")]];
    unfold bind, request, ret, raise; cbn;
    repeat answer drv;
    try destruct (opt_mobile c); cbn;
    repeat answer drv;
    intros H; try discriminate H;
    injection H as <- <-; (split; [reflexivity|]);
    eexists; (split; [reflexivity|]); cbn;
    repeat rewrite <- app_assoc; reflexivity.
Qed.

(** X22.  The browser name of the environment is compared as it is,
    capital letters included: with [BROWSER] set to anything but the exact
    names [chrome], [firefox] and [edge], the run raises [ValueError] before
    any request is made, and the test is not run. *)
Theorem browser_of_the_environment_is_taken_verbatim c b (test : M W unit) s :
  env_BROWSER c = Some b ->
  b <> "chrome" -> b <> "firefox" -> b <> "edge" ->
  run_with_driver drv c test s = (Raise (ValueError ("Unsupported browser: " ++ b)), s).
Proof.
  intros Hb H1 H2 H3.
  unfold run_with_driver, driver_setup, fixture_try, fixture_finally, create_driver,
    fixture_browser.
  rewrite Hb; cbn [getenv].
  apply String.eqb_neq in H1, H2, H3.
  rewrite H1, H2, H3; reflexivity.
Qed.

End Setup.

Lemma test_gets_a_configured_session_witness :
  true = true
  /\ exists call0,
      creation_request default_config = Some call0
      /\ trace (snd (driver_setup page_driver default_config (start blank_page)))
         = (trace (start blank_page)
            ++ map (fun c0 => {| ev_call := c0; ev_raised := None |})
                 (call0 :: configuration (opt_mobile default_config)))%list.
Proof.
  apply (@test_gets_a_configured_session _ page_driver default_config (start blank_page)
           true (snd (driver_setup page_driver default_config (start blank_page)))).
  reflexivity.
Defined.

Lemma browser_of_the_environment_is_taken_verbatim_witness :
  lower "Chrome" = "chrome"
  /\ run_with_driver page_driver capitalised_config failing_test (start blank_page)
     = (Raise (ValueError "Unsupported browser: Chrome"), start blank_page).
Proof.
  split; [reflexivity|].
  apply (@browser_of_the_environment_is_taken_verbatim _ page_driver capitalised_config
           "Chrome" failing_test (start blank_page));
    [reflexivity | discriminate | discriminate | discriminate].
Defined.

(** X23.  Without [HEADLESS] in the environment the command-line flag
    decides the headless mode.  With it, the flag is ignored: the mode is on
    exactly when the value of the variable is [true] in some capitalisation,
    so that values such as [1] or [yes] turn it off. *)
Theorem headless_setting c :
  (env_HEADLESS c = None -> fixture_headless c = opt_headless c)
  /\ (forall v, env_HEADLESS c = Some v ->
      (fixture_headless c = true <-> lower v = "true")).
Proof.
  unfold fixture_headless; split.
  - intros ->; cbn. now destruct (opt_headless c).
  - intros v ->; cbn. apply String.eqb_eq.
Qed.
